(** * calendar_manager.py: a shallow embedding and its verified properties

    The program is a command-line front end to a remote calendar: it parses
    its arguments, authenticates (token file, refresh exchange or consent
    flow), issues one request and prints the outcome.  Everything it does is
    an effect on something outside of it, so the embedding is a state and
    exception monad over a [World] that holds the local files, the remote
    calendar, the two output streams and the log of the outward calls made.

    What the libraries the program calls do (pickle, google-auth, the
    calendar service, datetime, the argparse sub-parsers) is not the
    program's code: it is taken as a parameter, the class [Externals], and
    every theorem holds for all of its instances. *)

From Stdlib Require Import ZArith Ascii String.
From stdpp Require Import gmap strings list fin_maps pretty.

Local Open Scope Z_scope.
Local Open Scope string_scope.

(** ** Python values *)

(** The dictionaries the calendar client returns and accepts are decoded
    JSON: [event['start']['dateTime']] is a lookup in an object nested in an
    object. *)
#[warnings="-register-all"]
Inductive json : Type :=
| JNull
| JBool (b : bool)
| JNum (z : Z)
| JStr (s : string)
| JList (l : list json)
| JObj (m : gmap string json).

(** An event resource is a dict with string keys. *)
Abbreviation event := (gmap string json).

(** The exception classes that occur in the program or in what it calls.
    [OtherError cls msg] stands for every class the program never names
    (RefreshError, UnpicklingError, TransportError, OverflowError, ...). *)
Inductive exn : Type :=
| HttpError (msg : string)
| ValueError (msg : string)
| KeyError (key : string)
| TypeError (msg : string)
| AttributeError (msg : string)
| SystemExit (code : Z)
| OtherError (cls msg : string).

(** [str(error)], as the f-strings of the handlers print it. *)
Definition exn_str (e : exn) : string :=
  match e with
  | HttpError msg | ValueError msg | TypeError msg | AttributeError msg => msg
  | KeyError key => "'" ++ key ++ "'"
  | SystemExit code => pretty code
  | OtherError _ msg => msg
  end.

(** Truthiness of a [str] and of an optional [str]: [None] and [''] are
    false. *)
Definition str_truthy (s : string) : bool :=
  match s with
  | EmptyString => false
  | String _ _ => true
  end.

Definition opt_truthy (o : option string) : bool :=
  match o with
  | None => false
  | Some s => str_truthy s
  end.

(** ** Credentials *)

(** The fields of [google.oauth2.credentials.Credentials] the program
    depends on.  [expiry] is in seconds on the clock of the world. *)
Record Credentials : Type := mkCredentials {
  token : option string;
  refresh_token : option string;
  expiry : option Z;
  scopes : list string;
}.

(** The handle [build('calendar', 'v3', credentials=creds)] returns. *)
Record Service : Type := mkService {
  svc_credentials : Credentials;
}.

Definition SCOPES : list string := ["https://www.googleapis.com/auth/calendar"].
Definition TOKEN_FILE : string := "token.pickle".
Definition CREDENTIALS_FILE : string := "credentials.json".

(** ** Parsed command lines *)

(** The namespace [parser.parse_args()] returns: [command] is [None] or one
    of the four sub-command names, each with the attributes its sub-parser
    declares (lines 182-205). *)
Inductive Namespace : Type :=
| NsNone
| NsList (max days : Z)
| NsCreate (title start end_ description : string) (attendees : option (list string))
| NsUpdate (event_id : string) (title start end_ description : option string)
| NsDelete (event_id : string).

(** A parser that stops the process: what it wrote to the two streams and
    the status it passed to [sys.exit]. *)
Record ParserExit : Type := mkParserExit {
  pe_stdout : list string;
  pe_stderr : list string;
  pe_status : Z;
}.

(** The answer of [events().list(...).execute()]: the [items] key may be
    missing. *)
Record ListResponse : Type := mkListResponse {
  items : option (list event);
}.

(** ** The libraries the program calls *)

Class Externals : Type := {
  (** datetime *)
  datetime : Type;
  fromisoformat : string → string + datetime;  (* inl msg: ValueError(msg) *)
  isoformat : datetime → string;
  strftime_minutes : datetime → string;        (* '%Y-%m-%d %H:%M' *)
  utcfromtimestamp : Z → datetime;
  plus_days : datetime → Z → option datetime;  (* None: OverflowError *)
  (** builtins: [str()] of a value that is not a [str] *)
  py_repr : json → string;
  (** pickle *)
  pickle_load : string → exn + option Credentials;
  pickle_dump : Credentials → string;
  (** google-auth and google-auth-oauthlib *)
  clock_skew : Z;
  refresh : Credentials → Z → exn + Credentials;
  client_config : Type;
  from_client_secrets_file : string → list string → exn + client_config;
  run_local_server : client_config → exn + Credentials;
  build : Credentials → option exn;
  (** the calendar service, resource [events] of calendar 'primary' *)
  remote_state : Type;
  events_list : Service → remote_state → string → string → Z → exn + ListResponse;
  events_insert : Service → remote_state → event → (exn + event) * remote_state;
  events_get : Service → remote_state → string → exn + event;
  events_update : Service → remote_state → string → event → (exn + event) * remote_state;
  events_delete : Service → remote_state → string → option exn * remote_state;
  (** argparse: the four sub-parsers, and the main parser on a command line
      that starts with an option *)
  parse_subcommand : string → list string → ParserExit + Namespace;
  parse_leading_option : list string → ParserExit + Namespace;
}.

(** ** The world and the calls made to it *)

(** The outward steps of the program, in the order it takes them. *)
Inductive Call : Type :=
| CRefresh (c : Credentials)
| CConsent
| CWriteFile (path data : string)
| CBuild (c : Credentials)
| CEventsList (timeMin timeMax : string) (maxResults : Z)
| CEventsInsert (body : event)
| CEventsGet (eventId : string)
| CEventsUpdate (eventId : string) (body : event)
| CEventsDelete (eventId : string).

(** A network round trip: the token endpoint or the calendar service. *)
Definition is_network (c : Call) : bool :=
  match c with
  | CRefresh _ | CEventsList _ _ _ | CEventsInsert _ | CEventsGet _
  | CEventsUpdate _ _ | CEventsDelete _ => true
  | CConsent | CWriteFile _ _ | CBuild _ => false
  end.

Definition is_refresh (c : Call) : bool :=
  match c with CRefresh _ => true | _ => false end.

Definition is_consent (c : Call) : bool :=
  match c with CConsent => true | _ => false end.

Definition is_write (c : Call) : bool :=
  match c with CWriteFile _ _ => true | _ => false end.

Section Program.
Context {E : Externals}.

Record World : Type := mkWorld {
  files : gmap string string;
  clock : Z;
  remote : remote_state;
  stdout : list string;
  stderr : list string;
  calls : list Call;
}.

(** ** The monad: state and exceptions *)

Inductive outcome (A : Type) : Type :=
| Ret (a : A)
| Raise (e : exn).
Global Arguments Ret {A} a.
Global Arguments Raise {A} e.

Definition M (A : Type) : Type := World → outcome A * World.

Definition ret {A} (a : A) : M A := λ w, (Ret a, w).

Definition raise {A} (e : exn) : M A := λ w, (Raise e, w).

Definition bind {A B} (m : M A) (k : A → M B) : M B :=
  λ w, match m w with
       | (Ret a, w') => k a w'
       | (Raise e, w') => (Raise e, w')
       end.

(** [try: body except ...: handler]: [handlers e] is the body of the first
    clause that matches [e], if any. *)
Definition try_except {A} (body : M A) (handlers : exn → option (M A)) : M A :=
  λ w, match body w with
       | (Ret a, w') => (Ret a, w')
       | (Raise e, w') =>
           match handlers e with
           | Some h => h w'
           | None => (Raise e, w')
           end
       end.

Definition lift_sum {A} (r : exn + A) : M A :=
  match r with
  | inl e => raise e
  | inr a => ret a
  end.

End Program.

Notation "'let!' x ':=' m 'in' k" := (bind m (λ x, k))
  (at level 10, x pattern, m at level 100, k at level 200).
Notation "'do!' m 'in' k" := (bind m (λ _, k))
  (at level 10, m at level 100, k at level 200).

Section Primitives.
Context {E : Externals}.

(** [print(line)] *)
Definition print (line : string) : M unit :=
  λ w, (Ret tt, mkWorld (files w) (clock w) (remote w)
                        (stdout w ++ [line]) (stderr w) (calls w)).

Definition eprint (line : string) : M unit :=
  λ w, (Ret tt, mkWorld (files w) (clock w) (remote w)
                        (stdout w) (stderr w ++ [line]) (calls w)).

(** Every outward step is logged when it is taken, whatever its result. *)
Definition log (c : Call) : M unit :=
  λ w, (Ret tt, mkWorld (files w) (clock w) (remote w)
                        (stdout w) (stderr w) (calls w ++ [c])).

(** [os.path.exists(path)] *)
Definition path_exists (path : string) : M bool :=
  λ w, (Ret (bool_decide (is_Some (files w !! path))), w).

(** [open(path, 'rb').read()] *)
Definition read_file (path : string) : M string :=
  λ w, match files w !! path with
       | Some data => (Ret data, w)
       | None => (Raise (OtherError "FileNotFoundError" path), w)
       end.

(** [with open(path, 'wb') as f: f.write(data)] *)
Definition write_file (path data : string) : M unit :=
  λ w, (Ret tt, mkWorld (<[path := data]> (files w)) (clock w) (remote w)
                        (stdout w) (stderr w) (calls w ++ [CWriteFile path data])).

Definition get_clock : M Z := λ w, (Ret (clock w), w).

Definition get_remote : M remote_state := λ w, (Ret (remote w), w).

Definition set_remote (r : remote_state) : M unit :=
  λ w, (Ret tt, mkWorld (files w) (clock w) r (stdout w) (stderr w) (calls w)).

(** ** google-auth *)

(** [creds.expired] and [creds.valid], the properties of google-auth:
    expired once the clock is within [clock_skew] of [expiry]; valid with a
    token that is not expired. *)
Definition expired (now : Z) (c : Credentials) : bool :=
  match expiry c with
  | None => false
  | Some t => (t - clock_skew <=? now)%Z
  end.

Definition valid (now : Z) (c : Credentials) : bool :=
  match token c with
  | None => false
  | Some _ => negb (expired now c)
  end.

(** [creds.refresh(Request())]: one exchange with the token endpoint; the
    credentials object is updated in place. *)
Definition creds_refresh (c : Credentials) : M Credentials :=
  do! log (CRefresh c) in
  let! now := get_clock in
  lift_sum (refresh c now).

(** [InstalledAppFlow.from_client_secrets_file(CREDENTIALS_FILE, SCOPES)]
    followed by [flow.run_local_server(port=0)], the interactive step. *)
Definition run_consent_flow : M Credentials :=
  let! secrets := read_file CREDENTIALS_FILE in
  let! flow := lift_sum (from_client_secrets_file secrets SCOPES) in
  do! log CConsent in
  lift_sum (run_local_server flow).

(** [build('calendar', 'v3', credentials=creds)] *)
Definition build_service (c : Credentials) : M Service :=
  do! log (CBuild c) in
  match build c with
  | Some e => raise e
  | None => ret (mkService c)
  end.

(** ** CalendarManager *)

(** Lines 42-49, the [else] branch of the refresh test: without the client
    secrets file, two lines of explanation and the early [return] ([None]
    here); with it, the consent flow. *)
Definition consent_branch : M (option Credentials) :=
  let! has_secrets := path_exists CREDENTIALS_FILE in
  if negb has_secrets
  then
    do! print ("Error: " ++ CREDENTIALS_FILE ++ " not found!") in
    do! print "Please download your OAuth 2.0 credentials from Google Cloud Console." in
    ret None
  else
    let! c' := run_consent_flow in
    ret (Some c').

(** Lines 32-36: the stored credential, [None] without a token file. *)
Definition load_token : M (option Credentials) :=
  let! has_token := path_exists TOKEN_FILE in
  if has_token
  then let! data := read_file TOKEN_FILE in lift_sum (pickle_load data)
  else ret None.

(** Lines 38-55, from the credential loaded.  The result is the value of
    [self.service] when the method returns: [None] is what [__init__] set,
    left in place by the early [return] of line 45. *)
Definition authenticate_from (creds : option Credentials) : M (option Service) :=
  let! now := get_clock in
  let! creds :=
    (if match creds with None => true | Some c => negb (valid now c) end
     then
       let! fresh :=
         (match creds with
          | Some c =>
              if expired now c && opt_truthy (refresh_token c)
              then let! c' := creds_refresh c in ret (Some c')
              else consent_branch
          | None => consent_branch
          end) in
       match fresh with
       | None => ret None
       | Some c' =>
           do! write_file TOKEN_FILE (pickle_dump c') in
           ret (Some c')
       end
     else ret creds) in
  match creds with
  | None => ret None
  | Some c =>
      let! service := build_service c in
      do! print "Successfully authenticated with Google Calendar" in
      ret (Some service)
  end.

(** [authenticate] (lines 30-55) *)
Definition authenticate : M (option Service) :=
  let! creds := load_token in
  authenticate_from creds.

End Primitives.

(** ** Strings and values, as the methods use them *)

Definition newline : string := String "010"%char EmptyString.

(** [needle in s] for a one-character needle. *)
Fixpoint str_contains (needle : ascii) (s : string) : bool :=
  match s with
  | EmptyString => false
  | String c s' => if decide (c = needle) then true else str_contains needle s'
  end.

(** [s.replace('Z', '+00:00')] *)
Fixpoint replace_Z (s : string) : string :=
  match s with
  | EmptyString => EmptyString
  | String c s' =>
      if decide (c = "Z"%char) then "+00:00" ++ replace_Z s'
      else String c (replace_Z s')
  end.

(** [d.get(key)]: Python's [None] is [JNull]. *)
Definition py_get (d : event) (key : string) : json :=
  default JNull (d !! key).

Section Methods.
Context {E : Externals}.

(** [str(v)], as an f-string prints a value. *)
Definition py_str (v : json) : string :=
  match v with
  | JStr s => s
  | JNull => "None"
  | JBool true => "True"
  | JBool false => "False"
  | JNum z => pretty z
  | JList _ | JObj _ => py_repr v
  end.

Record CalendarManager : Type := mkCalendarManager {
  service : option Service;
}.

(** [self.service.events()]: an attribute access on [None] when
    authentication did not complete. *)
Definition events_resource (self : CalendarManager) : M Service :=
  match service self with
  | Some svc => ret svc
  | None => raise (AttributeError "'NoneType' object has no attribute 'events'")
  end.

(** The four requests, [....execute()]. *)
Definition execute_list (svc : Service) (timeMin timeMax : string) (maxResults : Z)
  : M ListResponse :=
  do! log (CEventsList timeMin timeMax maxResults) in
  let! r := get_remote in
  lift_sum (events_list svc r timeMin timeMax maxResults).

Definition execute_insert (svc : Service) (body : event) : M event :=
  do! log (CEventsInsert body) in
  let! r := get_remote in
  do! set_remote (snd (events_insert svc r body)) in
  lift_sum (fst (events_insert svc r body)).

Definition execute_get (svc : Service) (eventId : string) : M event :=
  do! log (CEventsGet eventId) in
  let! r := get_remote in
  lift_sum (events_get svc r eventId).

Definition execute_update (svc : Service) (eventId : string) (body : event) : M event :=
  do! log (CEventsUpdate eventId body) in
  let! r := get_remote in
  do! set_remote (snd (events_update svc r eventId body)) in
  lift_sum (fst (events_update svc r eventId body)).

Definition execute_delete (svc : Service) (eventId : string) : M unit :=
  do! log (CEventsDelete eventId) in
  let! r := get_remote in
  do! set_remote (snd (events_delete svc r eventId)) in
  match fst (events_delete svc r eventId) with
  | Some e => raise e
  | None => ret tt
  end.

(** [datetime.fromisoformat(s)] *)
Definition parse_iso (s : string) : M datetime :=
  match fromisoformat s with
  | inl msg => raise (ValueError msg)
  | inr dt => ret dt
  end.

(** The two handlers every method but [list_events] and [delete_event]
    ends with; those two have the first clause only. *)
Definition on_http_error {A} (result : A) (e : exn) : option (M A) :=
  match e with
  | HttpError _ =>
      Some (do! print ("An error occurred: " ++ exn_str e) in ret result)
  | _ => None
  end.

Definition on_http_or_value_error {A} (result : A) (e : exn) : option (M A) :=
  match e with
  | HttpError _ =>
      Some (do! print ("An error occurred: " ++ exn_str e) in ret result)
  | ValueError _ =>
      Some (do! print ("Invalid datetime format: " ++ exn_str e) in ret result)
  | _ => None
  end.

(** *** list_events (lines 57-98) *)

(** One line of the listing, lines 82-92.  The schema of the service makes
    [start.dateTime], [start.date] and [id] strings; a value of another type
    is given the [TypeError] that [None] gets. *)
Definition print_event (ev : event) : M unit :=
  let! start_obj :=
    (match ev !! "start" with
     | None => raise (KeyError "start")
     | Some (JObj m) => ret m
     | Some _ => raise (AttributeError "object has no attribute 'get'")
     end) in
  let start := default (py_get start_obj "date") (start_obj !! "dateTime") in
  let summary := default (JStr "No title") (ev !! "summary") in
  let event_id := py_get ev "id" in
  let! formatted_time :=
    (match start with
     | JStr s =>
         if str_contains "T" s
         then let! start_dt := parse_iso (replace_Z s) in
              ret (strftime_minutes start_dt)
         else ret s
     | _ => raise (TypeError "argument of type 'NoneType' is not iterable")
     end) in
  match event_id with
  | JStr id =>
      print ("• " ++ formatted_time ++ " - " ++ py_str summary
             ++ " (ID: " ++ substring 0 8 id ++ "...)")
  | _ => raise (TypeError "'NoneType' object is not subscriptable")
  end.

Fixpoint print_events (evs : list event) : M unit :=
  match evs with
  | [] => ret tt
  | ev :: evs' => do! print_event ev in print_events evs'
  end.

Definition list_events (self : CalendarManager) (max_results days_ahead : Z)
  : M (list event) :=
  try_except
    (let! t := get_clock in
     let now := isoformat (utcfromtimestamp t) ++ "Z" in
     let! end_dt :=
       (match plus_days (utcfromtimestamp t) days_ahead with
        | None => raise (OtherError "OverflowError" "date value out of range")
        | Some d => ret d
        end) in
     let end_time := isoformat end_dt ++ "Z" in
     let! svc := events_resource self in
     let! events_result := execute_list svc now end_time max_results in
     let events := default [] (items events_result) in
     match events with
     | [] =>
         do! print ("No upcoming events found in the next "
                    ++ pretty days_ahead ++ " days.") in
         ret []
     | _ :: _ =>
         do! print (newline ++ "Upcoming events (next "
                    ++ pretty days_ahead ++ " days):") in
         do! print "------------------------------------------------------------" in
         do! print_events events in
         ret events
     end)
    (on_http_error []).

(** *** create_event (lines 100-135) *)

(** The request body of lines 107-121. *)
Definition new_event (title description : string) (start_dt end_dt : datetime)
    (attendees : option (list string)) : event :=
  let event : event :=
    {[ "summary" := JStr title;
       "description" := JStr description;
       "start" := JObj {[ "dateTime" := JStr (isoformat start_dt);
                          "timeZone" := JStr "UTC" ]};
       "end" := JObj {[ "dateTime" := JStr (isoformat end_dt);
                        "timeZone" := JStr "UTC" ]} ]} in
  match attendees with
  | Some ((_ :: _) as l) =>
      <["attendees" := JList ((λ email, JObj {[ "email" := JStr email ]}) <$> l)]> event
  | _ => event
  end.

(** The result is [event_id] or [None]; [JNull] is Python's [None]. *)
Definition create_event (self : CalendarManager) (title start_time end_time : string)
    (description : string) (attendees : option (list string)) : M json :=
  try_except
    (let! start_dt := parse_iso start_time in
     let! end_dt := parse_iso end_time in
     let event := new_event title description start_dt end_dt attendees in
     let! svc := events_resource self in
     let! created_event := execute_insert svc event in
     let event_id := py_get created_event "id" in
     do! print ("Event created successfully! ID: " ++ py_str event_id) in
     ret event_id)
    (on_http_or_value_error JNull).

(** *** update_event (lines 137-165) *)

(** [event[key]['dateTime'] = value] *)
Definition set_dateTime (key value : string) (ev : event) : exn + event :=
  match ev !! key with
  | None => inl (KeyError key)
  | Some (JObj m) => inr (<[key := JObj (<["dateTime" := JStr value]> m)]> ev)
  | Some _ => inl (TypeError "object does not support item assignment")
  end.

(** [if start_time: ...] and [if end_time: ...], lines 147-152. *)
Definition patch_date (key : string) (value : option string) (ev : event) : exn + event :=
  match value with
  | Some s =>
      if str_truthy s
      then match fromisoformat s with
           | inl msg => inl (ValueError msg)
           | inr dt => set_dateTime key (isoformat dt) ev
           end
      else inr ev
  | None => inr ev
  end.

(** [if title: ...] and [if description is not None: ...], lines 143-146. *)
Definition patch_text (ev : event) (title description : option string) : event :=
  let ev :=
    match title with
    | Some t => if str_truthy t then <["summary" := JStr t]> ev else ev
    | None => ev
    end in
  match description with
  | Some d => <["description" := JStr d]> ev
  | None => ev
  end.

(** Lines 143-152: the fetched event with the fields given written over
    it, or the exception one of the two dates raised. *)
Definition patch_fields (ev : event)
    (title start_time end_time description : option string) : exn + event :=
  match patch_date "start" start_time (patch_text ev title description) with
  | inl e => inl e
  | inr ev => patch_date "end" end_time ev
  end.

Definition update_event (self : CalendarManager) (event_id : string)
    (title start_time end_time description : option string) : M bool :=
  try_except
    (let! svc := events_resource self in
     let! event := execute_get svc event_id in
     let! event := lift_sum (patch_fields event title start_time end_time description) in
     let! updated_event := execute_update svc event_id event in
     do! print ("Event updated successfully! ID: " ++ event_id) in
     ret true)
    (on_http_or_value_error false).

(** *** delete_event (lines 167-176) *)

Definition delete_event (self : CalendarManager) (event_id : string) : M bool :=
  try_except
    (let! svc := events_resource self in
     do! execute_delete svc event_id in
     do! print ("Event deleted successfully! ID: " ++ event_id) in
     ret true)
    (on_http_error false).

(** [CalendarManager()]: [__init__] sets [service] to [None] and calls
    [authenticate]. *)
Definition CalendarManager_init : M CalendarManager :=
  let! svc := authenticate in
  ret (mkCalendarManager svc).

End Methods.

(** ** main (lines 178-237) *)

Definition PROG : string := "calendar_manager.py".

Definition COMMANDS : list string := ["list"; "create"; "update"; "delete"].

(** The usage line argparse derives from the parser of lines 179-205, and
    the text of [parser.print_help()]: the usage line, the description and
    the sub-commands with their [help=] strings. *)
Definition USAGE : string :=
  "usage: " ++ PROG ++ " [-h] {list,create,update,delete} ...".

Definition HELP : string :=
  USAGE ++ newline ++ newline
  ++ "Google Calendar Meeting Manager" ++ newline ++ newline
  ++ "positional arguments:" ++ newline
  ++ "  {list,create,update,delete}" ++ newline
  ++ "                        Available commands" ++ newline
  ++ "    list                List upcoming events" ++ newline
  ++ "    create              Create a new event" ++ newline
  ++ "    update              Update an existing event" ++ newline
  ++ "    delete              Delete an event" ++ newline ++ newline
  ++ "options:" ++ newline
  ++ "  -h, --help            show this help message and exit".

Definition starts_with_dash (tok : string) : bool :=
  match tok with
  | String "-"%char _ => true
  | _ => false
  end.

Section Main.
Context {E : Externals}.

Fixpoint print_all (lines : list string) : M unit :=
  match lines with
  | [] => ret tt
  | l :: lines' => do! print l in print_all lines'
  end.

Fixpoint eprint_all (lines : list string) : M unit :=
  match lines with
  | [] => ret tt
  | l :: lines' => do! eprint l in eprint_all lines'
  end.

(** What a sub-parser did: a namespace, or its output and [sys.exit]. *)
Definition parser_result (r : ParserExit + Namespace) : M Namespace :=
  match r with
  | inr ns => ret ns
  | inl x =>
      do! print_all (pe_stdout x) in
      do! eprint_all (pe_stderr x) in
      raise (SystemExit (pe_status x))
  end.

(** [parser.error(message)]: the usage line and the message on stderr, then
    [sys.exit(2)]. *)
Definition parser_error {A} (message : string) : M A :=
  do! eprint USAGE in
  do! eprint (PROG ++ ": error: " ++ message) in
  raise (SystemExit 2).

(** [parser.parse_args()] for the parser of lines 179-205.  The sub-parsers
    action is the only positional of the main parser and it is optional
    ([add_subparsers] without [required]): with no argument [command] stays
    [None]; a first argument that is not an option must be one of its
    choices and hands the rest of the line to that sub-parser. *)
Definition parse_args (argv : list string) : M Namespace :=
  match argv with
  | [] => ret NsNone
  | tok :: rest =>
      if starts_with_dash tok
      then parser_result (parse_leading_option argv)
      else if bool_decide (tok ∈ COMMANDS)
      then parser_result (parse_subcommand tok rest)
      else parser_error
             ("argument command: invalid choice: '" ++ tok
              ++ "' (choose from 'list', 'create', 'update', 'delete')")
  end.

(** [parser.print_help()] *)
Definition print_help : M unit := print HELP.

(** Lines 209-237, from the namespace parsed. *)
Definition dispatch (args : Namespace) : M unit :=
  match args with
  | NsNone => print_help
  | _ =>
      let! calendar := CalendarManager_init in
      match service calendar with
      | None => print "Failed to authenticate with Google Calendar"
      | Some _ =>
          match args with
          | NsNone => ret tt
          | NsList max days =>
              let! _ := list_events calendar max days in ret tt
          | NsCreate title start end_ description attendees =>
              let! _ := create_event calendar title start end_ description
                          (Some (default [] attendees)) in
              ret tt
          | NsUpdate event_id title start end_ description =>
              let! _ := update_event calendar event_id title start end_ description in
              ret tt
          | NsDelete event_id =>
              let! _ := delete_event calendar event_id in ret tt
          end
      end
  end.

Definition main (argv : list string) : M unit :=
  let! args := parse_args argv in
  dispatch args.

(** The status the process ends with: 0 when [main] returns, the argument
    of [sys.exit], 1 after the traceback of an uncaught exception. *)
Definition exit_status {A} (o : outcome A) : Z :=
  match o with
  | Ret _ => 0
  | Raise (SystemExit code) => code
  | Raise _ => 1
  end.

(** An uncaught exception that is not [SystemExit] ends the process with a
    traceback. *)
Definition crashed {A} (o : outcome A) : bool :=
  match o with
  | Ret _ => false
  | Raise (SystemExit _) => false
  | Raise _ => true
  end.

End Main.

(** ** Worlds after a run, and what is assumed of the calendar service *)

Section Observations.
Context {E : Externals}.

(** The world after [lines] were printed, after [cs] were called, and with
    the calendar in state [r]. *)
Definition printed (lines : list string) (w : World) : World :=
  mkWorld (files w) (clock w) (remote w) (stdout w ++ lines) (stderr w) (calls w).

Definition eprinted (lines : list string) (w : World) : World :=
  mkWorld (files w) (clock w) (remote w) (stdout w) (stderr w ++ lines) (calls w).

Definition called (cs : list Call) (w : World) : World :=
  mkWorld (files w) (clock w) (remote w) (stdout w) (stderr w) (calls w ++ cs).

Definition with_remote (r : remote_state) (w : World) : World :=
  mkWorld (files w) (clock w) r (stdout w) (stderr w) (calls w).

(** The service keeps an updated event as the body it was sent and
    touches no other event, and an update it refuses changes nothing:
    [update] is a plain write.  Nothing in the program depends on it; it is
    what makes the stored event a function of the request. *)
Definition update_stores_body : Prop :=
  ∀ (svc : Service) (r : remote_state) (id : string) (old body : event) (id' : string),
    events_get svc r id = inr old →
    events_get svc (snd (events_update svc r id body)) id'
      = match fst (events_update svc r id body) with
        | inr _ => if decide (id' = id) then inr body else events_get svc r id'
        | inl _ => events_get svc r id'
        end.


(** The credential loaded can be neither used nor refreshed: line 39 is
    false and the [else] branch of lines 42-49 runs. *)
Definition needs_consent (now : Z) (creds : option Credentials) : bool :=
  match creds with
  | None => true
  | Some c => negb (valid now c) && negb (expired now c && opt_truthy (refresh_token c))
  end.

(** What a run does to stdout: it only adds lines to it, and when it
    returns the last thing it did to it was to add a line. *)
Definition only_prints {A} (m : M A) : Prop :=
  ∀ w o w', m w = (o, w') → ∃ lines, stdout w' = (stdout w ++ lines)%list.

Definition returns_after_printing {A} (m : M A) : Prop :=
  ∀ w a w', m w = (Ret a, w') →
    ∃ lines line, stdout w' = (stdout w ++ lines ++ [line])%list.

End Observations.

(** ** What a run leaves alone *)

(** A request to the calendar service. *)
Definition is_calendar_request (c : Call) : bool :=
  match c with
  | CEventsList _ _ _ | CEventsInsert _ | CEventsGet _
  | CEventsUpdate _ _ | CEventsDelete _ => true
  | CRefresh _ | CConsent | CWriteFile _ _ | CBuild _ => false
  end.

Section Frames.
Context {E : Externals}.

(** [m] leaves the observation [f] of the world as it was, however it
    ends. *)
Definition preserves {X A} (f : World → X) (m : M A) : Prop :=
  ∀ w o w', m w = (o, w') → f w' = f w.

(** [m] only adds calls to the log, and each of them satisfies [P]. *)
Definition only_calls {A} (P : Call → bool) (m : M A) : Prop :=
  ∀ w o w', m w = (o, w') →
    ∃ cs, calls w' = (calls w ++ cs)%list ∧ forallb P cs = true.

(** [m] adds at most [n] calls to the log. *)
Definition at_most_calls {A} (n : nat) (m : M A) : Prop :=
  ∀ w o w', m w = (o, w') →
    ∃ cs, calls w' = (calls w ++ cs)%list ∧ (length cs ≤ n)%nat.

(** [m] touches nothing but the calendar and stdout: the files and stderr
    stay as they were and every call is a request to the calendar
    service. *)
Definition calendar_only {A} (m : M A) : Prop :=
  preserves files m ∧ preserves stderr m ∧ only_calls is_calendar_request m.

End Frames.

(** ** A test double of the libraries

    Small, total and deterministic stand-ins, to run the program on
    concrete command lines: dates in the one format
    [YYYY-MM-DDTHH:MM:SS], a token file that holds one of three known
    blobs, a calendar that is a dictionary from identifiers to events. *)
Module Sample.

Definition is_digit (c : ascii) : bool :=
  (48 <=? nat_of_ascii c)%nat && (nat_of_ascii c <=? 57)%nat.

(** [d] in the pattern stands for a digit, any other character for
    itself. *)
Fixpoint matches (pattern s : string) : bool :=
  match pattern, s with
  | EmptyString, EmptyString => true
  | String p ps, String c cs =>
      (if decide (p = "d"%char) then is_digit c else bool_decide (p = c))
      && matches ps cs
  | _, _ => false
  end.

Definition sample_fromisoformat (s : string) : string + string :=
  if matches "dddd-dd-ddTdd:dd:dd" s then inr s
  else inl ("Invalid isoformat string: '" ++ s ++ "'").

Definition sample_strftime (dt : string) : string :=
  substring 0 10 dt ++ " " ++ substring 11 5 dt.

#[global] Instance Credentials_eq_dec : EqDecision Credentials.
Proof. solve_decision. Defined.

Definition creds_valid : Credentials :=
  mkCredentials (Some "access-1") (Some "refresh-1") (Some 5000) SCOPES.

Definition creds_expired : Credentials :=
  mkCredentials (Some "access-0") (Some "refresh-0") (Some 100) SCOPES.

Definition creds_revoked : Credentials :=
  mkCredentials (Some "access-0") (Some "revoked") (Some 100) SCOPES.

Definition creds_consented : Credentials :=
  mkCredentials (Some "access-2") (Some "refresh-2") (Some 9000) SCOPES.

Definition creds_refreshed (c : Credentials) (now : Z) : Credentials :=
  mkCredentials (Some "access-new") (refresh_token c) (Some (now + 3600)) (scopes c).

Definition sample_pickle_dump (c : Credentials) : string :=
  if decide (c = creds_valid) then "pickle:valid"
  else if decide (c = creds_expired) then "pickle:expired"
  else if decide (c = creds_revoked) then "pickle:revoked"
  else if decide (c = creds_consented) then "pickle:consented"
  else "pickle:other".

Definition sample_pickle_load (data : string) : exn + option Credentials :=
  if decide (data = "pickle:valid") then inr (Some creds_valid)
  else if decide (data = "pickle:expired") then inr (Some creds_expired)
  else if decide (data = "pickle:revoked") then inr (Some creds_revoked)
  else if decide (data = "pickle:consented") then inr (Some creds_consented)
  else inl (OtherError "UnpicklingError" "invalid load key").

Definition sample_refresh (c : Credentials) (now : Z) : exn + Credentials :=
  if decide (refresh_token c = Some "revoked")
  then inl (OtherError "RefreshError" "invalid_grant: Token has been expired or revoked.")
  else inr (creds_refreshed c now).

Definition not_found : exn := HttpError "<HttpError 404 Not Found>".

Definition bad_request : exn := HttpError "<HttpError 400 Bad Request>".

(** The service refuses an event that ends before it starts; the dates
    are compared as text. *)
Definition date_of (key : string) (body : event) : string :=
  match body !! key with
  | Some (JObj m) =>
      match m !! "dateTime" with
      | Some (JStr s) => s
      | _ => ""
      end
  | _ => ""
  end.

Definition ends_before_start (body : event) : bool :=
  String.ltb (date_of "end" body) (date_of "start" body).

Definition sample_get (r : gmap string event) (id : string) : exn + event :=
  match r !! id with
  | Some ev => inr ev
  | None => inl not_found
  end.

Definition sample_update (r : gmap string event) (id : string) (body : event)
  : (exn + event) * gmap string event :=
  match r !! id with
  | Some _ =>
      if ends_before_start body then (inl bad_request, r)
      else (inr body, <[id := body]> r)
  | None => (inl not_found, r)
  end.

Definition sample_insert (r : gmap string event) (body : event)
  : (exn + event) * gmap string event :=
  if ends_before_start body then (inl bad_request, r)
  else
    let id := "evt" ++ pretty (size r) in
    let ev := <["id" := JStr id]> body in
    (inr ev, <[id := ev]> r).

Definition sample_delete (r : gmap string event) (id : string)
  : option exn * gmap string event :=
  match r !! id with
  | Some _ => (None, delete id r)
  | None => (Some not_found, r)
  end.

(** At most [maxResults] events, which must be positive; the window is
    not looked at. *)
Definition sample_list (r : gmap string event) (maxResults : Z) : exn + ListResponse :=
  if (maxResults <=? 0)%Z then inl bad_request
  else inr (mkListResponse (Some (take (Z.to_nat maxResults) (snd <$> map_to_list r)))).

Definition sub_usage_error (name : string) : ParserExit :=
  mkParserExit []
    ["usage: " ++ PROG ++ " " ++ name ++ " [-h] ...";
     PROG ++ " " ++ name ++ ": error: unrecognized arguments"] 2.

(** Positional arguments only, and [--description] for [update]. *)
Definition sample_subcommand (name : string) (rest : list string)
  : ParserExit + Namespace :=
  if decide (name = "list") then
    match rest with
    | [] => inr (NsList 10 7)
    | _ => inl (sub_usage_error name)
    end
  else if decide (name = "create") then
    match rest with
    | [title; start; end_] => inr (NsCreate title start end_ "" None)
    | _ => inl (sub_usage_error name)
    end
  else if decide (name = "update") then
    match rest with
    | [id] => inr (NsUpdate id None None None None)
    | [id; "--description"; d] => inr (NsUpdate id None None None (Some d))
    | [id; "--title"; t] => inr (NsUpdate id (Some t) None None None)
    | [id; "--start"; s] => inr (NsUpdate id None (Some s) None None)
    | _ => inl (sub_usage_error name)
    end
  else
    match rest with
    | [id] => inr (NsDelete id)
    | _ => inl (sub_usage_error name)
    end.

Definition sample_leading_option (argv : list string) : ParserExit + Namespace :=
  match argv with
  | "-h" :: _ | "--help" :: _ => inl (mkParserExit [HELP] [] 0)
  | _ => inl (mkParserExit [] [USAGE; PROG ++ ": error: unrecognized arguments"] 2)
  end.

#[global] Instance sample_externals : Externals := {|
  datetime := string;
  fromisoformat := sample_fromisoformat;
  isoformat := λ dt, dt;
  strftime_minutes := sample_strftime;
  utcfromtimestamp := λ _, "2024-01-01T00:00:00";
  plus_days := λ dt _, Some dt;
  py_repr := λ _, "<object>";
  pickle_load := sample_pickle_load;
  pickle_dump := sample_pickle_dump;
  clock_skew := 10;
  refresh := sample_refresh;
  client_config := string;
  from_client_secrets_file := λ data _, inr data;
  run_local_server := λ _, inr creds_consented;
  build := λ _, None;
  remote_state := gmap string event;
  events_list := λ _ r _ _ n, sample_list r n;
  events_insert := λ _ r body, sample_insert r body;
  events_get := λ _ r id, sample_get r id;
  events_update := λ _ r id body, sample_update r id body;
  events_delete := λ _ r id, sample_delete r id;
  parse_subcommand := sample_subcommand;
  parse_leading_option := sample_leading_option;
|}.

(** One event on the calendar. *)
Definition standup : event :=
  {[ "id" := JStr "evt0";
     "summary" := JStr "Standup";
     "description" := JStr "daily";
     "start" := JObj {[ "dateTime" := JStr "2024-01-01T09:00:00";
                        "timeZone" := JStr "UTC" ]};
     "end" := JObj {[ "dateTime" := JStr "2024-01-01T09:15:00";
                      "timeZone" := JStr "UTC" ]} ]}.

Definition calendar0 : gmap string event := {[ "evt0" := standup ]}.

(** A world at time 1000 with the given token file, the client secrets in
    place or not, and [standup] on the calendar. *)
Definition world (token_data : option string) (secrets : bool) : World :=
  mkWorld
    (let fs : gmap string string :=
       match token_data with
       | Some data => {[ TOKEN_FILE := data ]}
       | None => ∅
       end in
     if secrets then <[CREDENTIALS_FILE := "{}"]> fs else fs)
    1000 calendar0 [] [] [].

Definition manager : CalendarManager :=
  mkCalendarManager (Some (mkService creds_valid)).

(** The world of a user who has authenticated before. *)
Definition w_valid : World := world (Some "pickle:valid") true.

(** The same with a token that expired at 100: it is now 1000. *)
Definition w_expired : World := world (Some "pickle:expired") true.

(** An expired token whose refresh token was revoked. *)
Definition w_revoked : World := world (Some "pickle:revoked") true.

(** A token file that is not a pickle. *)
Definition w_corrupt : World := world (Some "garbage") true.

(** A first run, with and without the client secrets. *)
Definition w_first : World := world None true.
Definition w_bare : World := world None false.

(** [standup] moved to a later hour, with a new title. *)
Definition standup_patched : event :=
  <["end" := JObj {[ "dateTime" := JStr "2024-01-01T10:15:00";
                     "timeZone" := JStr "UTC" ]}]>
    (<["start" := JObj {[ "dateTime" := JStr "2024-01-01T10:00:00";
                          "timeZone" := JStr "UTC" ]}]>
       (<["summary" := JStr "Retro"]> standup)).

End Sample.

(** ** More events and calendars for the test double *)

Module Fixtures.
Import Sample.

(** What is left of an event that was cancelled: no dates. *)
Definition cancelled : event :=
  {[ "id" := JStr "evt1"; "status" := JStr "cancelled" ]}.

(** An all-day event. *)
Definition holiday : event :=
  {[ "id" := JStr "holiday-2024-01-01";
     "summary" := JStr "New Year";
     "start" := JObj {[ "date" := JStr "2024-01-01" ]};
     "end" := JObj {[ "date" := JStr "2024-01-02" ]} ]}.

(** An event whose start is not a date. *)
Definition unscheduled : event :=
  {[ "id" := JStr "evt2";
     "start" := JObj {[ "dateTime" := JStr "T.B.A." ]} ]}.

(** The world of [w_valid] with another calendar. *)
Definition world_of (r : gmap string event) : World :=
  mkWorld (files w_valid) 1000 r [] [] [].

Definition w_empty : World := world_of ∅.
Definition w_cancelled : World := world_of {[ "evt1" := cancelled ]}.
Definition w_unscheduled : World := world_of {[ "evt2" := unscheduled ]}.

(** A team meeting with two guests. *)
Definition guests : option (list string) := Some ["ann@example.org"; "bob@example.org"].

Definition review : event :=
  new_event "Review" "quarterly" "2024-03-01T14:00:00" "2024-03-01T15:00:00" guests.

End Fixtures.

(** * Properties *)

Local Open Scope list_scope.

(** Unfolds the program down to functions on worlds. *)
Ltac unfold_program :=
  unfold main, dispatch, CalendarManager_init, authenticate, load_token,
    authenticate_from, consent_branch, run_consent_flow, creds_refresh,
    build_service, list_events, create_event, update_event, delete_event,
    execute_list, execute_insert, execute_get, execute_update, execute_delete,
    events_resource, parse_iso, on_http_error, on_http_or_value_error,
    parse_args, parser_error, parser_result, print_help,
    lift_sum, try_except, bind, ret, raise, print, eprint, log,
    path_exists, read_file, write_file, get_clock, get_remote, set_remote.

(** Rewrites with the equations among the hypotheses, left to right. *)
Ltac use_equations :=
  repeat match goal with
         | H : _ = _ |- _ => rewrite H
         end.

(** Runs the program as far as the hypotheses determine it. *)
Ltac run := unfold_program; repeat (progress (use_equations; simpl)).

(** Lists of lines and calls that differ in bracketing only. *)
Ltac same_list := rewrite <- ?app_assoc; reflexivity.

Section Authentication.
Context {E : Externals}.

Lemma expired_not_valid (now : Z) (c : Credentials) :
  expired now c = true → valid now c = false.
Proof.
  unfold valid. intros ->. by destruct (token c).
Qed.

Lemma valid_not_expired (now : Z) (c : Credentials) :
  valid now c = true → expired now c = false.
Proof.
  unfold valid. destruct (token c); [|done]. by destruct (expired now c).
Qed.

(** C3.  A stored credential that is valid is used as it is: the service
    is built from that very credential, and building it is the only step
    taken; there is no refresh exchange, no consent flow, and neither the
    files nor the calendar change.  ([build] is the library's constructor;
    when it raises, [authenticate] raises the same exception.) *)
Theorem authenticate_valid_credential (w : World) (data : string) (c : Credentials) :
  files w !! TOKEN_FILE = Some data →
  pickle_load data = inr (Some c) →
  valid (clock w) c = true →
  fst (authenticate w)
    = match build c with
      | None => Ret (Some (mkService c))
      | Some e => Raise e
      end
  ∧ calls (snd (authenticate w)) = calls w ++ [CBuild c]
  ∧ List.filter is_network (calls (snd (authenticate w))) = List.filter is_network (calls w)
  ∧ List.filter is_consent (calls (snd (authenticate w))) = List.filter is_consent (calls w)
  ∧ files (snd (authenticate w)) = files w
  ∧ remote (snd (authenticate w)) = remote w.
Proof.
  intros Hfile Hload Hvalid.
  assert (Hcalls : calls (snd (authenticate w)) = calls w ++ [CBuild c]).
  { run. by destruct (build c). }
  rewrite Hcalls, !List.filter_app. simpl.
  repeat split; rewrite ?app_nil_r; try done; clear Hcalls; run; by destruct (build c).
Qed.

(** C4.  A stored credential that is expired and has a refresh token is
    refreshed by exactly one exchange, with no consent step; the credential
    the exchange returns is written to the token file, and the service is
    built from it.  When the exchange fails its exception leaves
    [authenticate], after that one exchange and with the files as they
    were. *)
Theorem authenticate_refreshes_expired (w : World) (data : string) (c : Credentials) :
  files w !! TOKEN_FILE = Some data →
  pickle_load data = inr (Some c) →
  expired (clock w) c = true →
  opt_truthy (refresh_token c) = true →
  length (List.filter is_refresh (calls (snd (authenticate w))))
    = S (length (List.filter is_refresh (calls w)))
  ∧ List.filter is_consent (calls (snd (authenticate w))) = List.filter is_consent (calls w)
  ∧ match refresh c (clock w) with
    | inr c' =>
        calls (snd (authenticate w))
          = calls w ++ [CRefresh c; CWriteFile TOKEN_FILE (pickle_dump c'); CBuild c']
        ∧ files (snd (authenticate w)) = <[TOKEN_FILE := pickle_dump c']> (files w)
        ∧ fst (authenticate w)
            = match build c' with
              | None => Ret (Some (mkService c'))
              | Some e => Raise e
              end
    | inl e =>
        calls (snd (authenticate w)) = calls w ++ [CRefresh c]
        ∧ files (snd (authenticate w)) = files w
        ∧ fst (authenticate w) = Raise e
    end.
Proof.
  intros Hfile Hload Hexpired Hrefresh.
  pose proof (expired_not_valid _ _ Hexpired) as Hvalid.
  destruct (refresh c (clock w)) as [e|c'] eqn:Hexchange.
  - assert (Hcalls : calls (snd (authenticate w)) = calls w ++ [CRefresh c]) by (by run).
    rewrite Hcalls, !List.filter_app, length_app. simpl.
    repeat split; rewrite ?app_nil_r; simpl; try done; try lia; clear Hcalls; by run.
  - assert (Hcalls : calls (snd (authenticate w))
              = calls w ++ [CRefresh c; CWriteFile TOKEN_FILE (pickle_dump c'); CBuild c']).
    { run. destruct (build c'); simpl; same_list. }
    rewrite Hcalls, !List.filter_app, length_app. simpl.
    repeat split; rewrite ?app_nil_r; simpl; try done; try lia; clear Hcalls;
      run; by destruct (build c').
Qed.

(** C5, as amended.  When [authenticate] completes with a service, the
    credential of that service either was loaded valid from the token file,
    and then nothing is written and the file is as it was, or it came from
    a refresh exchange or from the consent flow, and then it is written to
    the token file before the service is built. *)
Theorem authenticate_persists_what_it_obtains (w w' : World) (svc : Service) :
  authenticate w = (Ret (Some svc), w') →
  (∃ data,
      files w !! TOKEN_FILE = Some data
      ∧ pickle_load data = inr (Some (svc_credentials svc))
      ∧ valid (clock w) (svc_credentials svc) = true
      ∧ calls w' = calls w ++ [CBuild (svc_credentials svc)]
      ∧ files w' = files w)
  ∨ (∃ obtained,
      calls w' = calls w ++ [obtained;
                             CWriteFile TOKEN_FILE (pickle_dump (svc_credentials svc));
                             CBuild (svc_credentials svc)]
      ∧ (obtained = CConsent ∨ ∃ c0, obtained = CRefresh c0)
      ∧ files w' = <[TOKEN_FILE := pickle_dump (svc_credentials svc)]> (files w)).
Proof.
  unfold_program. intros Hrun.
  repeat (case_match; simplify_eq/=);
    try (left; eexists; split_and!; eauto; by apply negb_false_iff);
    right; eexists; (split; [same_list|]); split; by eauto.
Qed.

(** C6, as amended.  Only a missing token file counts as no credential:
    [authenticate] then goes on as with none.  Content that does not
    deserialize makes the load raise, and the exception leaves
    [authenticate] at once, with nothing printed and no step taken. *)
Theorem token_parse_failure_propagates (w w0 : World) (data : string) (e : exn) :
  files w !! TOKEN_FILE = Some data →
  pickle_load data = inl e →
  files w0 !! TOKEN_FILE = None →
  (load_token w = (Raise e, w) ∧ authenticate w = (Raise e, w))
  ∧ (load_token w0 = (Ret None, w0) ∧ authenticate w0 = authenticate_from None w0).
Proof.
  intros Hfile Hload Hmissing. repeat split.
  - by run.
  - by run.
  - by run.
  - unfold authenticate, load_token, bind, path_exists. by rewrite Hmissing.
Qed.

End Authentication.

Section UpdateFields.
Context {E : Externals}.

Lemma set_dateTime_inr (key value : string) (ev ev' : event) :
  set_dateTime key value ev = inr ev' →
  ∃ m, ev !! key = Some (JObj m)
       ∧ ev' = <[key := JObj (<["dateTime" := JStr value]> m)]> ev.
Proof.
  unfold set_dateTime. intros H. repeat case_match; simplify_eq. eauto.
Qed.

Lemma patch_date_absent (key : string) (value : option string) (ev : event) :
  opt_truthy value = false → patch_date key value ev = inr ev.
Proof.
  unfold patch_date. destruct value as [s|]; simpl; [|done]. by intros ->.
Qed.

Lemma patch_date_supplied (key s : string) (ev ev' : event) :
  str_truthy s = true →
  patch_date key (Some s) ev = inr ev' →
  ∃ dt m, fromisoformat s = inr dt
          ∧ ev !! key = Some (JObj m)
          ∧ ev' = <[key := JObj (<["dateTime" := JStr (isoformat dt)]> m)]> ev.
Proof.
  unfold patch_date. intros -> H.
  destruct (fromisoformat s) as [msg|dt]; [done|].
  apply set_dateTime_inr in H as (m & ? & ?). eauto.
Qed.

Lemma patch_date_other (key : string) (value : option string) (ev ev' : event) (k : string) :
  patch_date key value ev = inr ev' → k ≠ key → ev' !! k = ev !! k.
Proof.
  intros H Hk. destruct (opt_truthy value) eqn:Htruthy.
  - destruct value as [s|]; [|done].
    apply patch_date_supplied in H as (dt & m & _ & _ & ->); [|done].
    by rewrite lookup_insert_ne.
  - rewrite patch_date_absent in H by done. by simplify_eq.
Qed.

Lemma patch_fields_inr (ev body : event) (title start_time end_time description : option string) :
  patch_fields ev title start_time end_time description = inr body →
  ∃ ev1, patch_date "start" start_time (patch_text ev title description) = inr ev1
         ∧ patch_date "end" end_time ev1 = inr body.
Proof.
  unfold patch_fields. intros H.
  destruct (patch_date "start" _ _) as [e|ev1]; [done|]. eauto.
Qed.

Lemma patch_text_lookup (ev : event) (title description : option string) (k : string) :
  patch_text ev title description !! k
  = if decide (k = "description") then
      match description with
      | Some d => Some (JStr d)
      | None => ev !! k
      end
    else if decide (k = "summary") then
      match title with
      | Some t => if str_truthy t then Some (JStr t) else ev !! k
      | None => ev !! k
      end
    else ev !! k.
Proof.
  unfold patch_text.
  destruct description as [d|], title as [t|]; try destruct (str_truthy t);
    repeat case_decide; by simplify_map_eq.
Qed.

End UpdateFields.

Section Update.
Context {E : Externals}.

(** Once the event is fetched and the fields are written over it, one
    update request is sent with the patched event as its body, whatever the
    service answers. *)
Lemma update_event_requests (svc : Service) (w : World) (id : string)
    (title start_time end_time description : option string) (ev body : event) :
  events_get svc (remote w) id = inr ev →
  patch_fields ev title start_time end_time description = inr body →
  calls (snd (update_event (mkCalendarManager (Some svc)) id
                title start_time end_time description w))
    = calls w ++ [CEventsGet id; CEventsUpdate id body]
  ∧ remote (snd (update_event (mkCalendarManager (Some svc)) id
                   title start_time end_time description w))
    = snd (events_update svc (remote w) id body).
Proof.
  intros Hget Hpatch. run.
  destruct (events_update svc (remote w) id body) as [[e|ev'] r']; simpl.
  - destruct e; simpl; split; try done; same_list.
  - split; try done; same_list.
Qed.






(** C8.  With no field given the body of the update request is the event
    as it was fetched, and a service that stores what it is sent
    ([update_stores_body]) then holds, under every identifier, the event it
    held before. *)
Theorem update_event_no_fields_is_noop (svc : Service) (w : World) (id : string) (ev : event) :
  update_stores_body →
  events_get svc (remote w) id = inr ev →
  calls (snd (update_event (mkCalendarManager (Some svc)) id None None None None w))
    = calls w ++ [CEventsGet id; CEventsUpdate id ev]
  ∧ ∀ id',
      events_get svc
        (remote (snd (update_event (mkCalendarManager (Some svc)) id None None None None w)))
        id'
      = events_get svc (remote w) id'.
Proof.
  intros Hput Hget.
  destruct (update_event_requests svc w id None None None None ev ev Hget eq_refl)
    as [Hcalls Hremote].
  split; [done|]. intros id'. rewrite Hremote, (Hput _ _ _ ev) by done.
  case_match; [done|]. case_decide; by simplify_eq.
Qed.


End Update.

Section Create.
Context {E : Externals}.

(** C2.  When the start or the end does not parse, [create_event] returns
    [None] after one line that reports the invalid date, and the world is
    otherwise as it was: no call of any kind was made, so nothing was sent
    to the calendar, which is unchanged.  The two dates are parsed before
    the service is touched. *)
Theorem create_event_rejects_malformed_dates (self : CalendarManager) (w : World)
    (title start_time end_time description : string) (attendees : option (list string)) :
  (∃ msg, fromisoformat start_time = inl msg) ∨ (∃ msg, fromisoformat end_time = inl msg) →
  ∃ msg,
    create_event self title start_time end_time description attendees w
    = (Ret JNull, printed [("Invalid datetime format: " ++ msg)%string] w)
    ∧ (fromisoformat start_time = inl msg
       ∨ (∃ dt, fromisoformat start_time = inr dt) ∧ fromisoformat end_time = inl msg)
    ∧ calls (snd (create_event self title start_time end_time description attendees w))
      = calls w
    ∧ remote (snd (create_event self title start_time end_time description attendees w))
      = remote w.
Proof.
  intros Hbad.
  destruct (fromisoformat start_time) as [msg1|dt1] eqn:Hstart.
  - exists msg1. run. split_and!; eauto.
  - destruct Hbad as [[msg ?]|[msg2 Hend]]; [done|].
    exists msg2. run. split_and!; eauto.
Qed.

(** With two dates that parse and a service at hand, the one request made
    is the insertion of the event of lines 107-121. *)
Lemma create_event_requests (svc : Service) (w : World)
    (title start_time end_time description : string) (attendees : option (list string))
    (start_dt end_dt : datetime) :
  fromisoformat start_time = inr start_dt →
  fromisoformat end_time = inr end_dt →
  calls (snd (create_event (mkCalendarManager (Some svc)) title start_time end_time
                description attendees w))
    = calls w ++ [CEventsInsert (new_event title description start_dt end_dt attendees)].
Proof.
  intros Hstart Hend. run.
  destruct (events_insert svc (remote w) _) as [[e|ev'] r']; simpl; [|done].
  by destruct e.
Qed.

End Create.

Section CommandLine.
Context {E : Externals}.

(** C9, as amended.  A first argument that is neither an option nor one
    of the four command names is refused by the argument parser: the usage
    line and an invalid-choice error go to stderr and the process ends with
    status 2; no help is printed, and nothing else happens.  With no
    argument at all [main] prints the help text and returns.  Neither run
    makes a call. *)
Theorem main_unknown_command_or_none (w : World) (tok : string) (rest : list string) :
  starts_with_dash tok = false →
  tok ∉ COMMANDS →
  main (tok :: rest) w
    = (Raise (SystemExit 2),
       eprinted [USAGE;
                 (PROG ++ ": error: argument command: invalid choice: '" ++ tok
                  ++ "' (choose from 'list', 'create', 'update', 'delete')")%string] w)
  ∧ exit_status (fst (main (tok :: rest) w)) = 2
  ∧ stdout (snd (main (tok :: rest) w)) = stdout w
  ∧ calls (snd (main (tok :: rest) w)) = calls w
  ∧ main [] w = (Ret tt, printed [HELP] w)
  ∧ calls (snd (main [] w)) = calls w.
Proof.
  intros Hdash Hunknown.
  assert (Hrun : main (tok :: rest) w
            = (Raise (SystemExit 2),
               eprinted [USAGE;
                 (PROG ++ ": error: argument command: invalid choice: '" ++ tok
                  ++ "' (choose from 'list', 'create', 'update', 'delete')")%string] w)).
  { unfold main, parse_args, bind. rewrite Hdash, bool_decide_eq_false_2 by done.
    unfold parser_error, bind, eprint, raise, eprinted. simpl.
    by rewrite <- app_assoc. }
  by rewrite Hrun.
Qed.

(** A parser that returns a namespace has printed nothing. *)
Lemma parse_args_returns (argv : list string) (w w' : World) (ns : Namespace) :
  parse_args argv w = (Ret ns, w') → w' = w.
Proof.
  unfold_program. intros H.
  repeat (case_match; simplify_eq/=); try done.
  all: repeat match goal with
         | H : context [print_all ?l ?w] |- _ => destruct (print_all l w) as [[] ?]
         | H : context [eprint_all ?l ?w] |- _ => destruct (eprint_all l w) as [[] ?]
         end; by simplify_eq/=.
Qed.

End CommandLine.

(** ** What reaches stdout *)

Create HintDb output discriminated.

Section Output.
Context {E : Externals}.

Lemma bind_inv {A B} (m : M A) (k : A → M B) (w w' : World) (o : outcome B) :
  bind m k w = (o, w') →
  (∃ a w1, m w = (Ret a, w1) ∧ k a w1 = (o, w'))
  ∨ (∃ e, m w = (Raise e, w') ∧ o = Raise e).
Proof.
  unfold bind. destruct (m w) as [[a|e] w1]; intros H.
  - left. eauto.
  - right. simplify_eq. eauto.
Qed.

(** A run that returns [a], as a pair. *)
Lemma run_returns {A} (p : outcome A * World) (a : A) :
  fst p = Ret a → p = (Ret a, snd p).
Proof. destruct p as [o w]. simpl. by intros ->. Qed.

Lemma only_prints_ret {A} (a : A) : only_prints (ret a).
Proof. intros w o w' [= <- <-]. exists []. by rewrite app_nil_r. Qed.

Lemma only_prints_raise {A} (e : exn) : only_prints (raise (A := A) e).
Proof. intros w o w' [= <- <-]. exists []. by rewrite app_nil_r. Qed.

Lemma only_prints_print (line : string) : only_prints (print line).
Proof. intros w o w' [= <- <-]. by exists [line]. Qed.

Lemma only_prints_silent {A} (m : M A) :
  (∀ w, stdout (snd (m w)) = stdout w) → only_prints m.
Proof.
  intros Hm w o w' Hrun. exists []. rewrite app_nil_r, <- (Hm w). by rewrite Hrun.
Qed.

Lemma only_prints_bind {A B} (m : M A) (k : A → M B) :
  only_prints m → (∀ a, only_prints (k a)) → only_prints (bind m k).
Proof.
  intros Hm Hk w o w' [(a & w1 & Hrun & Hrest)|(e & Hrun & _)]%bind_inv.
  - destruct (Hm _ _ _ Hrun) as [l1 Hl1], (Hk _ _ _ _ Hrest) as [l2 Hl2].
    exists (l1 ++ l2). by rewrite Hl2, Hl1, app_assoc.
  - eauto.
Qed.

Lemma only_prints_try_except {A} (body : M A) (handlers : exn → option (M A)) :
  only_prints body →
  (∀ e h, handlers e = Some h → only_prints h) →
  only_prints (try_except body handlers).
Proof.
  intros Hbody Hhandlers w o w'. unfold try_except.
  destruct (body w) as [[a|e] w1] eqn:Hrun.
  - intros [= <- <-]. eauto.
  - destruct (Hbody _ _ _ Hrun) as [l1 Hl1].
    destruct (handlers e) as [h|] eqn:Hh.
    + intros [l2 ->]%(Hhandlers _ _ Hh). exists (l1 ++ l2). by rewrite Hl1, app_assoc.
    + intros [= <- <-]. eauto.
Qed.

Lemma returns_after_printing_raise {A} (e : exn) : returns_after_printing (raise (A := A) e).
Proof. by intros w a w'. Qed.

Lemma returns_after_printing_print (line : string) : returns_after_printing (print line).
Proof. intros w a w' [= <- <-]. by exists [], line. Qed.

(** Printing, then returning a value. *)
Lemma returns_after_printing_value {A B} (m : M A) (f : A → B) :
  returns_after_printing m → returns_after_printing (bind m (λ a, ret (f a))).
Proof.
  intros Hm w b w' [(a & w1 & Hrun & [= <- <-])|(e & _ & ?)]%bind_inv; [|done].
  eauto.
Qed.

Lemma returns_after_printing_then {A B} (m : M A) (b : B) :
  returns_after_printing m → returns_after_printing (bind m (λ _, ret b)).
Proof. apply (returns_after_printing_value m (λ _, b)). Qed.

Lemma returns_after_printing_bind {A B} (m : M A) (k : A → M B) :
  only_prints m → (∀ a, returns_after_printing (k a)) →
  returns_after_printing (bind m k).
Proof.
  intros Hm Hk w b w' [(a & w1 & Hrun & Hrest)|(e & _ & ?)]%bind_inv; [|done].
  destruct (Hm _ _ _ Hrun) as [l1 Hl1], (Hk _ _ _ _ Hrest) as (l2 & line & Hl2).
  exists (l1 ++ l2), line. by rewrite Hl2, Hl1, !app_assoc.
Qed.

Lemma returns_after_printing_try_except {A} (body : M A) (handlers : exn → option (M A)) :
  only_prints body → returns_after_printing body →
  (∀ e h, handlers e = Some h → returns_after_printing h) →
  returns_after_printing (try_except body handlers).
Proof.
  intros Hprints Hbody Hhandlers w a w'. unfold try_except.
  destruct (body w) as [[a'|e] w1] eqn:Hrun.
  - intros [= <- <-]. eauto.
  - destruct (Hprints _ _ _ Hrun) as [l1 Hl1].
    destruct (handlers e) as [h|] eqn:Hh; [|done].
    intros (l2 & line & ->)%(Hhandlers _ _ Hh).
    exists (l1 ++ l2), line. by rewrite Hl1, !app_assoc.
Qed.

End Output.

#[global] Hint Resolve only_prints_ret only_prints_raise only_prints_print
  returns_after_printing_raise returns_after_printing_print : output.

Section ProgramOutput.
Context {E : Externals}.

Lemma only_prints_log (c : Call) : only_prints (log c).
Proof. by apply only_prints_silent. Qed.

Lemma only_prints_eprint (line : string) : only_prints (eprint line).
Proof. by apply only_prints_silent. Qed.

Lemma only_prints_path_exists (path : string) : only_prints (path_exists path).
Proof. by apply only_prints_silent. Qed.

Lemma only_prints_read_file (path : string) : only_prints (read_file path).
Proof. apply only_prints_silent. intros w. unfold read_file. by case_match. Qed.

Lemma only_prints_write_file (path data : string) : only_prints (write_file path data).
Proof. by apply only_prints_silent. Qed.

Lemma only_prints_get_clock : only_prints get_clock.
Proof. by apply only_prints_silent. Qed.

Lemma only_prints_get_remote : only_prints get_remote.
Proof. by apply only_prints_silent. Qed.

Lemma only_prints_set_remote (r : remote_state) : only_prints (set_remote r).
Proof. by apply only_prints_silent. Qed.

Lemma only_prints_lift_sum {A} (r : exn + A) : only_prints (lift_sum r).
Proof. destruct r; simpl; eauto with output. Qed.

Lemma only_prints_on_http_error {A} (result : A) (e : exn) (h : M A) :
  on_http_error result e = Some h → only_prints h.
Proof.
  destruct e; intros [= <-]. apply only_prints_bind; eauto with output.
Qed.

Lemma only_prints_on_http_or_value_error {A} (result : A) (e : exn) (h : M A) :
  on_http_or_value_error result e = Some h → only_prints h.
Proof.
  destruct e; intros [= <-]; apply only_prints_bind; eauto with output.
Qed.

Lemma reports_on_http_error {A} (result : A) (e : exn) (h : M A) :
  on_http_error result e = Some h → returns_after_printing h.
Proof.
  destruct e; intros [= <-].
  apply (returns_after_printing_value _ (λ _, result)); eauto with output.
Qed.

Lemma reports_on_http_or_value_error {A} (result : A) (e : exn) (h : M A) :
  on_http_or_value_error result e = Some h → returns_after_printing h.
Proof.
  destruct e; intros [= <-];
    apply (returns_after_printing_value _ (λ _, result)); eauto with output.
Qed.

End ProgramOutput.

#[global] Hint Resolve only_prints_log only_prints_eprint only_prints_path_exists
  only_prints_read_file only_prints_write_file only_prints_get_clock
  only_prints_get_remote only_prints_set_remote only_prints_lift_sum
  only_prints_on_http_error only_prints_on_http_or_value_error
  reports_on_http_error reports_on_http_or_value_error : output.

(** Proves [only_prints m] along the binds and branches of [m]. *)
Ltac prints :=
  repeat first
    [ solve [eauto with output]
    | apply only_prints_bind; [|intros ?]
    | apply only_prints_try_except; [|intros ? ? ?]
    | progress case_match ].

Section MethodOutput.
Context {E : Externals}.

Lemma only_prints_print_all (lines : list string) : only_prints (print_all lines).
Proof. induction lines; simpl; prints. Qed.

Lemma only_prints_eprint_all (lines : list string) : only_prints (eprint_all lines).
Proof. induction lines; simpl; prints. Qed.

Lemma only_prints_parse_args (argv : list string) : only_prints (parse_args argv).
Proof.
  pose proof only_prints_print_all. pose proof only_prints_eprint_all.
  unfold parse_args, parser_result, parser_error. prints.
Qed.

Lemma only_prints_authenticate : only_prints authenticate.
Proof.
  unfold authenticate, load_token, authenticate_from, consent_branch,
    run_consent_flow, creds_refresh, build_service.
  prints.
Qed.

Lemma only_prints_parse_iso (s : string) : only_prints (parse_iso s).
Proof. unfold parse_iso. prints. Qed.

Lemma only_prints_events_resource (self : CalendarManager) :
  only_prints (events_resource self).
Proof. unfold events_resource. prints. Qed.

Lemma only_prints_print_event (ev : event) : only_prints (print_event ev).
Proof.
  pose proof only_prints_parse_iso. unfold print_event. prints.
Qed.

Lemma reports_print_event (ev : event) : returns_after_printing (print_event ev).
Proof.
  pose proof only_prints_parse_iso. unfold print_event.
  apply returns_after_printing_bind; [prints|intros ?].
  apply returns_after_printing_bind; [prints|intros ?].
  case_match; eauto with output.
Qed.

Lemma only_prints_print_events (evs : list event) : only_prints (print_events evs).
Proof.
  pose proof only_prints_print_event. induction evs; simpl; prints.
Qed.

Lemma reports_print_events (ev : event) (evs : list event) :
  returns_after_printing (print_events (ev :: evs)).
Proof.
  revert ev. induction evs as [|ev' evs IH]; intros ev.
  - simpl. apply (returns_after_printing_value _ (λ _, tt)). apply reports_print_event.
  - change (print_events (ev :: ev' :: evs))
      with (bind (print_event ev) (λ _, print_events (ev' :: evs))).
    apply returns_after_printing_bind; [apply only_prints_print_event|done].
Qed.

End MethodOutput.

#[global] Hint Resolve only_prints_print_all only_prints_eprint_all
  only_prints_parse_args only_prints_authenticate only_prints_parse_iso
  only_prints_events_resource only_prints_print_event only_prints_print_events
  reports_print_event reports_print_events : output.

Section Reports.
Context {E : Externals}.

Lemma only_prints_execute_list svc timeMin timeMax maxResults :
  only_prints (execute_list svc timeMin timeMax maxResults).
Proof. unfold execute_list. prints. Qed.

Lemma only_prints_execute_insert svc body : only_prints (execute_insert svc body).
Proof. unfold execute_insert. prints. Qed.

Lemma only_prints_execute_get svc id : only_prints (execute_get svc id).
Proof. unfold execute_get. prints. Qed.

Lemma only_prints_execute_update svc id body : only_prints (execute_update svc id body).
Proof. unfold execute_update. prints. Qed.

Lemma only_prints_execute_delete svc id : only_prints (execute_delete svc id).
Proof. unfold execute_delete. prints. Qed.

Hint Resolve only_prints_execute_list only_prints_execute_insert
  only_prints_execute_get only_prints_execute_update only_prints_execute_delete : output.

(** Follows a body to the [print] it ends with. *)
Ltac to_last_print :=
  cbv zeta;
  repeat first
    [ solve [apply returns_after_printing_then; eauto with output]
    | apply returns_after_printing_bind; [solve [prints]|intros ?] ].

Lemma reports_list_events self max_results days_ahead :
  returns_after_printing (list_events self max_results days_ahead)
  ∧ only_prints (list_events self max_results days_ahead).
Proof.
  unfold list_events. split.
  - apply returns_after_printing_try_except; [prints| |eauto with output].
    to_last_print. case_match; to_last_print.
  - prints.
Qed.

Lemma reports_create_event self title start_time end_time description attendees :
  returns_after_printing (create_event self title start_time end_time description attendees)
  ∧ only_prints (create_event self title start_time end_time description attendees).
Proof.
  unfold create_event. split.
  - apply returns_after_printing_try_except; [prints| |eauto with output].
    to_last_print.
  - prints.
Qed.

Lemma reports_update_event self event_id title start_time end_time description :
  returns_after_printing (update_event self event_id title start_time end_time description)
  ∧ only_prints (update_event self event_id title start_time end_time description).
Proof.
  unfold update_event. split.
  - apply returns_after_printing_try_except; [prints| |eauto with output].
    to_last_print.
  - prints.
Qed.

Lemma reports_delete_event self event_id :
  returns_after_printing (delete_event self event_id)
  ∧ only_prints (delete_event self event_id).
Proof.
  unfold delete_event. split.
  - apply returns_after_printing_try_except; [prints| |eauto with output].
    to_last_print.
  - prints.
Qed.

Lemma reports_dispatch (args : Namespace) : returns_after_printing (dispatch args).
Proof.
  unfold dispatch, print_help, CalendarManager_init.
  destruct args; [eauto with output|..];
    (apply returns_after_printing_bind; [prints|intros [[svc|]]]; simpl;
     [|eauto with output]);
    apply returns_after_printing_then.
  - apply reports_list_events.
  - apply reports_create_event.
  - apply reports_update_event.
  - apply reports_delete_event.
Qed.

(** Whenever [main] returns, the last thing it did was to print a line. *)
Lemma reports_main (argv : list string) : returns_after_printing (main argv).
Proof.
  unfold main. apply returns_after_printing_bind; [eauto with output|].
  apply reports_dispatch.
Qed.

End Reports.

Section Failures.
Context {E : Externals}.

(** Without a usable credential and without the client secrets file,
    [authenticate] explains and returns, leaving no service. *)
Lemma authenticate_config_missing (w : World) (creds : option Credentials) :
  load_token w = (Ret creds, w) →
  needs_consent (clock w) creds = true →
  files w !! CREDENTIALS_FILE = None →
  authenticate w
  = (Ret None,
     printed [("Error: " ++ CREDENTIALS_FILE ++ " not found!")%string;
              "Please download your OAuth 2.0 credentials from Google Cloud Console."] w).
Proof.
  intros Hload Hneeds Hsecrets. unfold authenticate, bind at 1. rewrite Hload.
  unfold needs_consent in Hneeds.
  destruct creds as [c|].
  - apply andb_true_iff in Hneeds as [Hvalid Hrefresh%negb_true_iff].
    run. unfold printed. by rewrite <- app_assoc.
  - run. unfold printed. by rewrite <- app_assoc.
Qed.

Lemma dispatch_config_missing (w : World) (args : Namespace) (creds : option Credentials) :
  args ≠ NsNone →
  load_token w = (Ret creds, w) →
  needs_consent (clock w) creds = true →
  files w !! CREDENTIALS_FILE = None →
  dispatch args w
  = (Ret tt,
     printed [("Error: " ++ CREDENTIALS_FILE ++ " not found!")%string;
              "Please download your OAuth 2.0 credentials from Google Cloud Console.";
              "Failed to authenticate with Google Calendar"] w).
Proof.
  intros Hargs Hload Hneeds Hsecrets.
  pose proof (authenticate_config_missing w creds Hload Hneeds Hsecrets) as Hauth.
  destruct args; [done|..];
    unfold dispatch, CalendarManager_init, bind; rewrite Hauth; simpl;
    unfold print, printed; simpl; by rewrite <- app_assoc.
Qed.

Lemma update_event_invalid_date (svc : Service) (w : World) (id : string)
    (title start_time end_time description : option string) (ev : event) (msg : string) :
  events_get svc (remote w) id = inr ev →
  patch_fields ev title start_time end_time description = inl (ValueError msg) →
  update_event (mkCalendarManager (Some svc)) id title start_time end_time description w
  = (Ret false,
     printed [("Invalid datetime format: " ++ msg)%string] (called [CEventsGet id] w)).
Proof. intros Hget Hpatch. by run. Qed.

Lemma list_events_http_error (svc : Service) (w : World) (max_results days_ahead : Z)
    (end_dt : datetime) (msg : string) :
  plus_days (utcfromtimestamp (clock w)) days_ahead = Some end_dt →
  events_list svc (remote w)
    (isoformat (utcfromtimestamp (clock w)) ++ "Z")%string
    (isoformat end_dt ++ "Z")%string max_results = inl (HttpError msg) →
  list_events (mkCalendarManager (Some svc)) max_results days_ahead w
  = (Ret [],
     printed [("An error occurred: " ++ msg)%string]
       (called [CEventsList (isoformat (utcfromtimestamp (clock w)) ++ "Z")%string
                            (isoformat end_dt ++ "Z")%string max_results] w)).
Proof. intros Hend Hlist. by run. Qed.

Lemma create_event_http_error (svc : Service) (w : World)
    (title start_time end_time description : string) (attendees : option (list string))
    (start_dt end_dt : datetime) (msg : string) :
  fromisoformat start_time = inr start_dt →
  fromisoformat end_time = inr end_dt →
  fst (events_insert svc (remote w)
         (new_event title description start_dt end_dt attendees)) = inl (HttpError msg) →
  create_event (mkCalendarManager (Some svc)) title start_time end_time
    description attendees w
  = (Ret JNull,
     printed [("An error occurred: " ++ msg)%string]
       (with_remote
          (snd (events_insert svc (remote w)
                  (new_event title description start_dt end_dt attendees)))
          (called [CEventsInsert (new_event title description start_dt end_dt attendees)] w))).
Proof. intros Hstart Hend Hinsert. by run. Qed.

Lemma update_event_get_http_error (svc : Service) (w : World) (id : string)
    (title start_time end_time description : option string) (msg : string) :
  events_get svc (remote w) id = inl (HttpError msg) →
  update_event (mkCalendarManager (Some svc)) id title start_time end_time description w
  = (Ret false,
     printed [("An error occurred: " ++ msg)%string] (called [CEventsGet id] w)).
Proof. intros Hget. by run. Qed.

Lemma update_event_update_http_error (svc : Service) (w : World) (id : string)
    (title start_time end_time description : option string) (ev body : event) (msg : string) :
  events_get svc (remote w) id = inr ev →
  patch_fields ev title start_time end_time description = inr body →
  fst (events_update svc (remote w) id body) = inl (HttpError msg) →
  update_event (mkCalendarManager (Some svc)) id title start_time end_time description w
  = (Ret false,
     printed [("An error occurred: " ++ msg)%string]
       (with_remote (snd (events_update svc (remote w) id body))
          (called [CEventsGet id; CEventsUpdate id body] w))).
Proof.
  intros Hget Hpatch Hupdate. run. unfold printed, with_remote, called. simpl.
  by rewrite <- app_assoc.
Qed.

Lemma delete_event_http_error (svc : Service) (w : World) (id : string) (msg : string) :
  fst (events_delete svc (remote w) id) = Some (HttpError msg) →
  delete_event (mkCalendarManager (Some svc)) id w
  = (Ret false,
     printed [("An error occurred: " ++ msg)%string]
       (with_remote (snd (events_delete svc (remote w) id))
          (called [CEventsDelete id] w))).
Proof. intros Hdelete. by run. Qed.

End Failures.

Section Propagation.
Context {E : Externals}.

Lemma create_event_invalid_date (self : CalendarManager) (w : World)
    (title start_time end_time description : string) (attendees : option (list string))
    (msg : string) :
  fromisoformat start_time = inl msg
  ∨ (∃ dt, fromisoformat start_time = inr dt) ∧ fromisoformat end_time = inl msg →
  create_event self title start_time end_time description attendees w
  = (Ret JNull, printed [("Invalid datetime format: " ++ msg)%string] w).
Proof.
  intros [Hstart|[[dt Hstart] Hend]]; by run.
Qed.

(** [authenticate] has no handler: what the libraries raise while it
    loads, refreshes, asks for consent or builds the service leaves it. *)
Lemma authenticate_raises_load (w : World) (data : string) (e : exn) :
  files w !! TOKEN_FILE = Some data →
  pickle_load data = inl e →
  authenticate w = (Raise e, w).
Proof. intros Hfile Hload. by run. Qed.

Lemma authenticate_raises_refresh (w : World) (data : string) (c : Credentials) (e : exn) :
  files w !! TOKEN_FILE = Some data →
  pickle_load data = inr (Some c) →
  expired (clock w) c = true →
  opt_truthy (refresh_token c) = true →
  refresh c (clock w) = inl e →
  authenticate w = (Raise e, called [CRefresh c] w).
Proof.
  intros Hfile Hload Hexpired Hrefresh Hexchange.
  pose proof (expired_not_valid _ _ Hexpired) as Hvalid. by run.
Qed.

Lemma authenticate_raises_secrets (w : World) (creds : option Credentials)
    (secrets : string) (e : exn) :
  load_token w = (Ret creds, w) →
  needs_consent (clock w) creds = true →
  files w !! CREDENTIALS_FILE = Some secrets →
  from_client_secrets_file secrets SCOPES = inl e →
  authenticate w = (Raise e, w).
Proof.
  intros Hload Hneeds Hsecrets Hflow.
  assert (Hfrom : authenticate w = authenticate_from creds w).
  { unfold authenticate, bind. by rewrite Hload. }
  rewrite Hfrom. clear Hfrom Hload. unfold needs_consent in Hneeds.
  destruct creds as [c0|].
  - apply andb_true_iff in Hneeds as [Hvalid Hrefresh%negb_true_iff]. by run.
  - by run.
Qed.

Lemma authenticate_raises_consent (w : World) (creds : option Credentials)
    (secrets : string) (flow : client_config) (e : exn) :
  load_token w = (Ret creds, w) →
  needs_consent (clock w) creds = true →
  files w !! CREDENTIALS_FILE = Some secrets →
  from_client_secrets_file secrets SCOPES = inr flow →
  run_local_server flow = inl e →
  authenticate w = (Raise e, called [CConsent] w).
Proof.
  intros Hload Hneeds Hsecrets Hflow Hgrant.
  assert (Hfrom : authenticate w = authenticate_from creds w).
  { unfold authenticate, bind. by rewrite Hload. }
  rewrite Hfrom. clear Hfrom Hload. unfold needs_consent in Hneeds.
  destruct creds as [c0|].
  - apply andb_true_iff in Hneeds as [Hvalid Hrefresh%negb_true_iff]. by run.
  - by run.
Qed.

Lemma authenticate_raises_build (w : World) (data : string) (c : Credentials) (e : exn) :
  files w !! TOKEN_FILE = Some data →
  pickle_load data = inr (Some c) →
  valid (clock w) c = true →
  build c = Some e →
  authenticate w = (Raise e, called [CBuild c] w).
Proof. intros Hfile Hload Hvalid Hbuild. by run. Qed.

(** Neither has [main]: an exception of [authenticate] is the exception
    of the run. *)
Lemma dispatch_raises (w w1 : World) (args : Namespace) (e : exn) :
  args ≠ NsNone →
  authenticate w = (Raise e, w1) →
  dispatch args w = (Raise e, w1).
Proof.
  intros Hargs Hauth.
  destruct args; [done|..];
    unfold dispatch, CalendarManager_init, bind; by rewrite Hauth.
Qed.

Lemma main_raises (w w1 : World) (argv : list string) (args : Namespace) (e : exn) :
  parse_args argv w = (Ret args, w) →
  args ≠ NsNone →
  authenticate w = (Raise e, w1) →
  main argv w = (Raise e, w1).
Proof.
  intros Hparse Hargs Hauth. unfold main, bind. rewrite Hparse.
  by apply dispatch_raises.
Qed.

(** C7, as amended.  The failures the program has a handler or a test for
    are reported and turned into a result: a missing client secrets file
    (two lines of explanation, no service, and then the line of [main]), a
    date that does not parse in [create_event] and [update_event], and an
    [HttpError] from any of the five requests.  Each ends in a printed
    line and the value for "did not complete" ([None], [False] or the
    empty list), and whenever [main] returns the last thing it did was to
    print a line.  An exception raised while authenticating, by the load
    of the token, the refresh exchange, the reading of the client secrets,
    the consent flow or the build of the service, is not caught: it leaves
    [authenticate] and, whatever the command, [main]. *)
Theorem handled_failures_are_reported (w : World) (svc : Service) (msg : string) :
  (∀ args creds,
      args ≠ NsNone →
      load_token w = (Ret creds, w) →
      needs_consent (clock w) creds = true →
      files w !! CREDENTIALS_FILE = None →
      dispatch args w
      = (Ret tt,
         printed [("Error: " ++ CREDENTIALS_FILE ++ " not found!")%string;
                  "Please download your OAuth 2.0 credentials from Google Cloud Console.";
                  "Failed to authenticate with Google Calendar"] w))
  ∧ (∀ title start_time end_time description attendees,
      fromisoformat start_time = inl msg
      ∨ (∃ dt, fromisoformat start_time = inr dt) ∧ fromisoformat end_time = inl msg →
      create_event (mkCalendarManager (Some svc)) title start_time end_time
        description attendees w
      = (Ret JNull, printed [("Invalid datetime format: " ++ msg)%string] w))
  ∧ (∀ id title start_time end_time description ev,
      events_get svc (remote w) id = inr ev →
      patch_fields ev title start_time end_time description = inl (ValueError msg) →
      update_event (mkCalendarManager (Some svc)) id title start_time end_time description w
      = (Ret false,
         printed [("Invalid datetime format: " ++ msg)%string] (called [CEventsGet id] w)))
  ∧ (∀ max_results days_ahead end_dt,
      plus_days (utcfromtimestamp (clock w)) days_ahead = Some end_dt →
      events_list svc (remote w)
        (isoformat (utcfromtimestamp (clock w)) ++ "Z")%string
        (isoformat end_dt ++ "Z")%string max_results = inl (HttpError msg) →
      list_events (mkCalendarManager (Some svc)) max_results days_ahead w
      = (Ret [],
         printed [("An error occurred: " ++ msg)%string]
           (called [CEventsList (isoformat (utcfromtimestamp (clock w)) ++ "Z")%string
                                (isoformat end_dt ++ "Z")%string max_results] w)))
  ∧ (∀ title start_time end_time description attendees start_dt end_dt,
      fromisoformat start_time = inr start_dt →
      fromisoformat end_time = inr end_dt →
      fst (events_insert svc (remote w)
             (new_event title description start_dt end_dt attendees))
        = inl (HttpError msg) →
      create_event (mkCalendarManager (Some svc)) title start_time end_time
        description attendees w
      = (Ret JNull,
         printed [("An error occurred: " ++ msg)%string]
           (with_remote
              (snd (events_insert svc (remote w)
                      (new_event title description start_dt end_dt attendees)))
              (called [CEventsInsert
                         (new_event title description start_dt end_dt attendees)] w))))
  ∧ (∀ id title start_time end_time description,
      events_get svc (remote w) id = inl (HttpError msg) →
      update_event (mkCalendarManager (Some svc)) id title start_time end_time description w
      = (Ret false,
         printed [("An error occurred: " ++ msg)%string] (called [CEventsGet id] w)))
  ∧ (∀ id title start_time end_time description ev body,
      events_get svc (remote w) id = inr ev →
      patch_fields ev title start_time end_time description = inr body →
      fst (events_update svc (remote w) id body) = inl (HttpError msg) →
      update_event (mkCalendarManager (Some svc)) id title start_time end_time description w
      = (Ret false,
         printed [("An error occurred: " ++ msg)%string]
           (with_remote (snd (events_update svc (remote w) id body))
              (called [CEventsGet id; CEventsUpdate id body] w))))
  ∧ (∀ id,
      fst (events_delete svc (remote w) id) = Some (HttpError msg) →
      delete_event (mkCalendarManager (Some svc)) id w
      = (Ret false,
         printed [("An error occurred: " ++ msg)%string]
           (with_remote (snd (events_delete svc (remote w) id))
              (called [CEventsDelete id] w))))
  ∧ (∀ argv w',
      main argv w = (Ret tt, w') →
      ∃ lines line, stdout w' = stdout w ++ lines ++ [line])
  ∧ (∀ data e,
      files w !! TOKEN_FILE = Some data →
      pickle_load data = inl e →
      authenticate w = (Raise e, w))
  ∧ (∀ data c e,
      files w !! TOKEN_FILE = Some data →
      pickle_load data = inr (Some c) →
      expired (clock w) c = true →
      opt_truthy (refresh_token c) = true →
      refresh c (clock w) = inl e →
      authenticate w = (Raise e, called [CRefresh c] w))
  ∧ (∀ creds secrets e,
      load_token w = (Ret creds, w) →
      needs_consent (clock w) creds = true →
      files w !! CREDENTIALS_FILE = Some secrets →
      from_client_secrets_file secrets SCOPES = inl e →
      authenticate w = (Raise e, w))
  ∧ (∀ creds secrets flow e,
      load_token w = (Ret creds, w) →
      needs_consent (clock w) creds = true →
      files w !! CREDENTIALS_FILE = Some secrets →
      from_client_secrets_file secrets SCOPES = inr flow →
      run_local_server flow = inl e →
      authenticate w = (Raise e, called [CConsent] w))
  ∧ (∀ data c e,
      files w !! TOKEN_FILE = Some data →
      pickle_load data = inr (Some c) →
      valid (clock w) c = true →
      build c = Some e →
      authenticate w = (Raise e, called [CBuild c] w))
  ∧ (∀ argv args e w1,
      parse_args argv w = (Ret args, w) →
      args ≠ NsNone →
      authenticate w = (Raise e, w1) →
      dispatch args w = (Raise e, w1) ∧ main argv w = (Raise e, w1)).
Proof.
  split_and!; [..|intros argv args e w1 Hparse Hargs Hauth; split].
  - intros. by eapply dispatch_config_missing.
  - intros. by apply create_event_invalid_date.
  - intros. by eapply update_event_invalid_date.
  - intros. by apply list_events_http_error.
  - intros. by apply create_event_http_error.
  - intros. by apply update_event_get_http_error.
  - intros. by eapply update_event_update_http_error.
  - intros. by apply delete_event_http_error.
  - intros argv w' Hrun. by eapply reports_main.
  - intros. by eapply authenticate_raises_load.
  - intros. by eapply authenticate_raises_refresh.
  - intros. by eapply authenticate_raises_secrets.
  - intros. by eapply authenticate_raises_consent.
  - intros. by eapply authenticate_raises_build.
  - by apply dispatch_raises.
  - by eapply main_raises.
Qed.

End Propagation.

(** * Runs on the test double *)

Module Runs.
Import Sample Fixtures.

Lemma sample_update_stores_body : update_stores_body (E := sample_externals).
Proof.
  intros svc r id old body id' Hget. simpl in *.
  unfold sample_get, sample_update in *.
  destruct (r !! id) as [ev|] eqn:Hid; [|done].
  destruct (ends_before_start body); simpl; [done|].
  case_decide as Hid'.
  - subst id'. by rewrite lookup_insert_eq.
  - by rewrite lookup_insert_ne.
Defined.


Lemma create_event_rejects_malformed_dates_witness :
  ∃ msg,
    create_event manager "Standup" "not-a-date" "2024-01-01T09:15:00" "" None w_valid
    = (Ret JNull, printed [("Invalid datetime format: " ++ msg)%string] w_valid).
Proof.
  destruct (create_event_rejects_malformed_dates manager w_valid
              "Standup" "not-a-date" "2024-01-01T09:15:00" "" None)
    as (msg & Hrun & _).
  - left. eexists. vm_compute. reflexivity.
  - exists msg. exact Hrun.
Defined.

Lemma authenticate_valid_credential_witness :
  fst (authenticate w_valid) = Ret (Some (mkService creds_valid))
  ∧ calls (snd (authenticate w_valid)) = [CBuild creds_valid].
Proof.
  destruct (authenticate_valid_credential w_valid "pickle:valid" creds_valid)
    as (Hresult & Hcalls & _); try reflexivity.
  split; [exact Hresult|exact Hcalls].
Defined.

Lemma authenticate_refreshes_expired_witness :
  length (List.filter is_refresh (calls (snd (authenticate w_expired)))) = 1%nat
  ∧ List.filter is_consent (calls (snd (authenticate w_expired))) = [].
Proof.
  destruct (authenticate_refreshes_expired w_expired "pickle:expired" creds_expired)
    as (Hone & Hnone & _); try reflexivity.
  split; [exact Hone|exact Hnone].
Defined.

Lemma authenticate_persists_what_it_obtains_witness :
  calls (snd (authenticate w_valid)) = [CBuild creds_valid]
  ∨ ∃ obtained,
      calls (snd (authenticate w_valid))
      = [obtained; CWriteFile TOKEN_FILE (pickle_dump creds_valid); CBuild creds_valid].
Proof.
  destruct (authenticate_persists_what_it_obtains w_valid (snd (authenticate w_valid))
              (mkService creds_valid) eq_refl)
    as [(data & _ & _ & _ & Hcalls & _)|(obtained & Hcalls & _)].
  - left. exact Hcalls.
  - right. exists obtained. exact Hcalls.
Defined.

Lemma token_parse_failure_propagates_witness :
  authenticate w_corrupt
  = (Raise (OtherError "UnpicklingError" "invalid load key"), w_corrupt)
  ∧ load_token w_first = (Ret None, w_first).
Proof.
  destruct (token_parse_failure_propagates w_corrupt w_first "garbage"
              (OtherError "UnpicklingError" "invalid load key"))
    as ((_ & Hfatal) & (Habsent & _)); try reflexivity.
  split; [exact Hfatal|exact Habsent].
Defined.

Lemma update_event_no_fields_is_noop_witness :
  calls (snd (update_event manager "evt0" None None None None w_valid))
    = [CEventsGet "evt0"; CEventsUpdate "evt0" standup]
  ∧ events_get (mkService creds_valid)
      (remote (snd (update_event manager "evt0" None None None None w_valid))) "evt0"
    = inr standup.
Proof.
  destruct (update_event_no_fields_is_noop (mkService creds_valid) w_valid "evt0" standup
              sample_update_stores_body)
    as (Hcalls & Hstored).
  - reflexivity.
  - split; [exact Hcalls|]. rewrite Hstored. reflexivity.
Defined.


Lemma main_unknown_command_or_none_witness :
  exit_status (fst (main ["frobnicate"; "--now"] w_valid)) = 2
  ∧ main [] w_valid = (Ret tt, printed [HELP] w_valid).
Proof.
  destruct (main_unknown_command_or_none w_valid "frobnicate" ["--now"])
    as (_ & Hstatus & _ & _ & Hhelp & _).
  - reflexivity.
  - apply (bool_decide_eq_false_1 ("frobnicate" ∈ COMMANDS)). reflexivity.
  - split; [exact Hstatus|exact Hhelp].
Defined.

Lemma handled_failures_are_reported_witness :
  dispatch (NsList 10 7) w_bare
    = (Ret tt,
       printed ["Error: credentials.json not found!";
                "Please download your OAuth 2.0 credentials from Google Cloud Console.";
                "Failed to authenticate with Google Calendar"] w_bare)
  ∧ update_event manager "evt0" None (Some "tomorrow") None None w_valid
    = (Ret false,
       printed ["Invalid datetime format: Invalid isoformat string: 'tomorrow'"]
         (called [CEventsGet "evt0"] w_valid))
  ∧ list_events manager 0 7 w_valid
    = (Ret [],
       printed ["An error occurred: <HttpError 400 Bad Request>"]
         (called [CEventsList "2024-01-01T00:00:00Z" "2024-01-01T00:00:00Z" 0] w_valid))
  ∧ update_event manager "evt9" (Some "Retro") None None None w_valid
    = (Ret false,
       printed ["An error occurred: <HttpError 404 Not Found>"]
         (called [CEventsGet "evt9"] w_valid))
  ∧ delete_event manager "evt9" w_valid
    = (Ret false,
       printed ["An error occurred: <HttpError 404 Not Found>"]
         (called [CEventsDelete "evt9"] w_valid))
  ∧ (∃ lines line,
       stdout (snd (main ["delete"; "evt0"] w_valid)) = stdout w_valid ++ lines ++ [line])
  ∧ main ["list"] w_revoked
    = (Raise (OtherError "RefreshError" "invalid_grant: Token has been expired or revoked."),
       called [CRefresh creds_revoked] w_revoked).
Proof.
  destruct (handled_failures_are_reported w_bare (mkService creds_valid) "")
    as (Hconfig & _).
  destruct (handled_failures_are_reported w_valid (mkService creds_valid)
              "Invalid isoformat string: 'tomorrow'")
    as (_ & _ & Hdate & _).
  destruct (handled_failures_are_reported w_valid (mkService creds_valid)
              "<HttpError 400 Bad Request>")
    as (_ & _ & _ & Hlist & _).
  destruct (handled_failures_are_reported w_valid (mkService creds_valid)
              "<HttpError 404 Not Found>")
    as (_ & _ & _ & _ & _ & Hget & _ & Hdelete & Hmain & _).
  destruct (handled_failures_are_reported w_revoked (mkService creds_valid) "")
    as (_ & _ & _ & _ & _ & _ & _ & _ & _ & _ & Hrefresh & _ & _ & _ & Hescapes).
  split_and!.
  - apply (Hconfig (NsList 10 7) None); [discriminate|reflexivity..].
  - apply (Hdate "evt0" None (Some "tomorrow") None None standup); reflexivity.
  - apply (Hlist 0 7 "2024-01-01T00:00:00"); reflexivity.
  - apply (Hget "evt9" (Some "Retro") None None None). reflexivity.
  - apply (Hdelete "evt9"). reflexivity.
  - apply (Hmain ["delete"; "evt0"] (snd (main ["delete"; "evt0"] w_valid))).
    apply run_returns. vm_compute. reflexivity.
  - apply (Hescapes ["list"] (NsList 10 7)); [reflexivity|discriminate|].
    apply (Hrefresh "pickle:revoked" creds_revoked); reflexivity.
Defined.

(** ** Runs that contradict the specification *)


(** C5: with a valid stored credential [authenticate] completes without
    writing the token file. *)
Lemma authenticate_valid_writes_nothing :
  fst (authenticate w_valid) = Ret (Some (mkService creds_valid))
  ∧ List.filter is_write (calls (snd (authenticate w_valid))) = []
  ∧ files (snd (authenticate w_valid)) = files w_valid.
Proof. split_and!; [by vm_compute..|reflexivity]. Qed.

(** C6: a token file that does not deserialize ends [authenticate], and
    [main], with the exception of the load, where a missing file leads to
    the consent flow. *)
Lemma corrupt_token_file_is_fatal :
  fst (authenticate w_corrupt) = Raise (OtherError "UnpicklingError" "invalid load key")
  ∧ calls (snd (authenticate w_corrupt)) = []
  ∧ crashed (fst (main ["list"] w_corrupt)) = true
  ∧ fst (authenticate w_first) = Ret (Some (mkService creds_consented))
  ∧ calls (snd (authenticate w_first))
    = [CConsent; CWriteFile TOKEN_FILE "pickle:consented"; CBuild creds_consented].
Proof. vm_compute. done. Qed.

(** C7: a refresh exchange that fails is an authentication failure that
    nothing catches: [main] ends with the exception and has printed
    nothing. *)
Lemma refresh_failure_escapes_main :
  fst (main ["list"] w_revoked)
    = Raise (OtherError "RefreshError" "invalid_grant: Token has been expired or revoked.")
  ∧ crashed (fst (main ["list"] w_revoked)) = true
  ∧ stdout (snd (main ["list"] w_revoked)) = []
  ∧ calls (snd (main ["list"] w_revoked)) = [CRefresh creds_revoked].
Proof. vm_compute. done. Qed.

(** C9: an unknown command name ends the process with status 2 and an
    error on stderr; the help text is not printed. *)
Lemma unknown_command_exits_with_error :
  fst (main ["frobnicate"] w_valid) = Raise (SystemExit 2)
  ∧ exit_status (fst (main ["frobnicate"] w_valid)) = 2
  ∧ stdout (snd (main ["frobnicate"] w_valid)) = []
  ∧ stderr (snd (main ["frobnicate"] w_valid))
    = [USAGE;
       "calendar_manager.py: error: argument command: invalid choice: 'frobnicate' (choose from 'list', 'create', 'update', 'delete')"].
Proof. vm_compute. done. Qed.

End Runs.

(** * Further properties of the program *)

Section FrameRules.
Context {E : Externals}.

Lemma preserves_ret {X A} (f : World → X) (a : A) : preserves f (ret a).
Proof. by intros w o w' [= <- <-]. Qed.

Lemma preserves_raise {X A} (f : World → X) (e : exn) : preserves f (raise (A := A) e).
Proof. by intros w o w' [= <- <-]. Qed.

Lemma preserves_bind {X A B} (f : World → X) (m : M A) (k : A → M B) :
  preserves f m → (∀ a, preserves f (k a)) → preserves f (bind m k).
Proof.
  intros Hm Hk w o w' [(a & w1 & Hrun & Hrest)|(e & Hrun & _)]%bind_inv.
  - by rewrite (Hk _ _ _ _ Hrest), (Hm _ _ _ Hrun).
  - eauto.
Qed.

Lemma preserves_try_except {X A} (f : World → X) (body : M A)
    (handlers : exn → option (M A)) :
  preserves f body →
  (∀ e h, handlers e = Some h → preserves f h) →
  preserves f (try_except body handlers).
Proof.
  intros Hbody Hhandlers w o w'. unfold try_except.
  destruct (body w) as [[a|e] w1] eqn:Hrun.
  - intros [= <- <-]. eauto.
  - destruct (handlers e) as [h|] eqn:Hh.
    + intros Hh'. by rewrite (Hhandlers _ _ Hh _ _ _ Hh'), (Hbody _ _ _ Hrun).
    + intros [= <- <-]. eauto.
Qed.

(** A step that computes its world from the one it gets. *)
Lemma preserves_step {X A} (f : World → X) (m : M A) :
  (∀ w, f (snd (m w)) = f w) → preserves f m.
Proof. intros Hm w o w' Hrun. by rewrite <- (Hm w), Hrun. Qed.

Lemma only_calls_quiet {A} (P : Call → bool) (m : M A) :
  preserves calls m → only_calls P m.
Proof.
  intros Hm w o w' Hrun. exists []. by rewrite app_nil_r, (Hm _ _ _ Hrun).
Qed.

Lemma only_calls_log (P : Call → bool) (c : Call) : P c = true → only_calls P (log c).
Proof. intros Hc w o w' [= <- <-]. exists [c]. simpl. by rewrite Hc. Qed.

Lemma only_calls_bind {A B} (P : Call → bool) (m : M A) (k : A → M B) :
  only_calls P m → (∀ a, only_calls P (k a)) → only_calls P (bind m k).
Proof.
  intros Hm Hk w o w' [(a & w1 & Hrun & Hrest)|(e & Hrun & _)]%bind_inv.
  - destruct (Hm _ _ _ Hrun) as (cs1 & Hcs1 & HP1), (Hk _ _ _ _ Hrest) as (cs2 & Hcs2 & HP2).
    exists (cs1 ++ cs2). split.
    + by rewrite Hcs2, Hcs1, app_assoc.
    + by rewrite forallb_app, HP1, HP2.
  - eauto.
Qed.

Lemma only_calls_try_except {A} (P : Call → bool) (body : M A)
    (handlers : exn → option (M A)) :
  only_calls P body →
  (∀ e h, handlers e = Some h → only_calls P h) →
  only_calls P (try_except body handlers).
Proof.
  intros Hbody Hhandlers w o w'. unfold try_except.
  destruct (body w) as [[a|e] w1] eqn:Hrun.
  - intros [= <- <-]. eauto.
  - destruct (Hbody _ _ _ Hrun) as (cs1 & Hcs1 & HP1).
    destruct (handlers e) as [h|] eqn:Hh.
    + intros (cs2 & Hcs2 & HP2)%(Hhandlers _ _ Hh).
      exists (cs1 ++ cs2). split.
      * by rewrite Hcs2, Hcs1, app_assoc.
      * by rewrite forallb_app, HP1, HP2.
    + intros [= <- <-]. eauto.
Qed.

End FrameRules.

Create HintDb frame discriminated.

#[global] Hint Resolve preserves_ret preserves_raise : frame.

(** Proves [preserves f m] along the binds and branches of [m]; the steps
    of [m] that build a world are left to [preserves_step]. *)
Ltac frame :=
  repeat first
    [ solve [eauto with frame]
    | apply preserves_bind; [|intros ?]
    | apply preserves_try_except; [|intros ? ? ?]
    | solve [apply preserves_step; intros ?; reflexivity]
    | progress case_match ].

Section FramePrimitives.
Context {E : Externals}.

Lemma preserves_read_file {X} (f : World → X) (path : string) :
  preserves f (read_file path).
Proof. intros w o w'. unfold read_file. by case_match; intros [= <- <-]. Qed.

Lemma preserves_write_file_other (path other data : string) :
  other ≠ path → preserves (λ w, files w !! other) (write_file path data).
Proof.
  intros Hother. apply preserves_step. intros w. simpl. by apply lookup_insert_ne.
Qed.

Lemma only_calls_write_file (P : Call → bool) (path data : string) :
  P (CWriteFile path data) = true → only_calls P (write_file path data).
Proof.
  intros Hc w o w' [= <- <-]. exists [CWriteFile path data]. simpl. by rewrite Hc.
Qed.

End FramePrimitives.

#[global] Hint Resolve preserves_read_file preserves_write_file_other : frame.

(** Handlers are one [print] and one [ret]. *)
Ltac open_handler :=
  match goal with
  | H : on_http_error _ ?e = Some _ |- _ =>
      destruct e; simpl in H; simplify_eq
  | H : on_http_or_value_error _ ?e = Some _ |- _ =>
      destruct e; simpl in H; simplify_eq
  end.

Ltac frame_program :=
  unfold authenticate, load_token, authenticate_from, consent_branch,
    run_consent_flow, creds_refresh, build_service,
    list_events, create_event, update_event, delete_event,
    execute_list, execute_insert, execute_get, execute_update, execute_delete,
    events_resource, parse_iso, lift_sum;
  repeat first [ progress frame | open_handler ].

(** Proves [only_calls P m] along the binds and branches of [m]. *)
Ltac calls_frame :=
  repeat first
    [ apply only_calls_log; reflexivity
    | apply only_calls_write_file; reflexivity
    | apply only_calls_bind; [|intros ?]
    | apply only_calls_try_except; [|intros ? ? ?]
    | solve [apply only_calls_quiet; frame_program]
    | open_handler
    | progress case_match ].

Section AuthenticationFrame.
Context {E : Externals}.

(** X1.  Without a credential that can be used or refreshed, and with the
    client secrets in place, [authenticate] runs the consent flow once and
    makes no refresh exchange; the credential the user granted is written
    to the token file and the service is built from it. *)
Theorem authenticate_consent_flow (w : World) (creds : option Credentials)
    (secrets : string) (flow : client_config) (c : Credentials) :
  load_token w = (Ret creds, w) →
  needs_consent (clock w) creds = true →
  files w !! CREDENTIALS_FILE = Some secrets →
  from_client_secrets_file secrets SCOPES = inr flow →
  run_local_server flow = inr c →
  calls (snd (authenticate w))
    = calls w ++ [CConsent; CWriteFile TOKEN_FILE (pickle_dump c); CBuild c]
  ∧ files (snd (authenticate w)) = <[TOKEN_FILE := pickle_dump c]> (files w)
  ∧ fst (authenticate w)
    = match build c with
      | None => Ret (Some (mkService c))
      | Some e => Raise e
      end.
Proof.
  intros Hload Hneeds Hsecrets Hflow Hgrant.
  assert (Hfrom : authenticate w = authenticate_from creds w).
  { unfold authenticate, bind. by rewrite Hload. }
  rewrite Hfrom. clear Hfrom Hload. unfold needs_consent in Hneeds.
  destruct creds as [c0|].
  - apply andb_true_iff in Hneeds as [Hvalid Hrefresh%negb_true_iff].
    run. destruct (build c); simpl; split_and!; try done; same_list.
  - run. destruct (build c); simpl; split_and!; try done; same_list.
Qed.

(** X2.  Whatever it finds and however it ends, [authenticate] leaves the
    calendar and stderr as they were, changes no file but the token file,
    and sends no request to the calendar service. *)
Theorem authenticate_leaves_calendar_alone (w : World) :
  remote (snd (authenticate w)) = remote w
  ∧ stderr (snd (authenticate w)) = stderr w
  ∧ (∀ path, path ≠ TOKEN_FILE →
       files (snd (authenticate w)) !! path = files w !! path)
  ∧ ∃ cs, calls (snd (authenticate w)) = calls w ++ cs
          ∧ forallb (λ c, negb (is_calendar_request c)) cs = true.
Proof.
  destruct (authenticate w) as [o w'] eqn:Hrun. simpl. split_and!.
  - revert w o w' Hrun. change (preserves remote authenticate). frame_program.
  - revert w o w' Hrun. change (preserves stderr authenticate). frame_program.
  - intros path Hpath. revert w o w' Hrun.
    change (preserves (λ w, files w !! path) authenticate). frame_program.
  - revert w o w' Hrun.
    change (only_calls (λ c, negb (is_calendar_request c)) authenticate).
    unfold authenticate, load_token, authenticate_from, consent_branch,
      run_consent_flow, creds_refresh, build_service.
    calls_frame.
Qed.

End AuthenticationFrame.

Section MethodFrame.
Context {E : Externals}.

Lemma preserves_print_event {X} (f : World → X) (ev : event) :
  (∀ line, preserves f (print line)) → preserves f (print_event ev).
Proof.
  intros Hprint. unfold print_event, parse_iso. frame.
Qed.

Lemma preserves_print_events {X} (f : World → X) (evs : list event) :
  (∀ line, preserves f (print line)) → preserves f (print_events evs).
Proof.
  intros Hprint. pose proof (preserves_print_event f) as Hevent.
  induction evs; simpl; frame.
Qed.

Lemma print_keeps_files (line : string) : preserves files (print line).
Proof. by apply preserves_step. Qed.

Lemma print_keeps_stderr (line : string) : preserves stderr (print line).
Proof. by apply preserves_step. Qed.

Lemma print_keeps_calls (line : string) : preserves calls (print line).
Proof. by apply preserves_step. Qed.

Lemma print_keeps_remote (line : string) : preserves remote (print line).
Proof. by apply preserves_step. Qed.

End MethodFrame.

#[global] Hint Resolve print_keeps_files print_keeps_stderr print_keeps_calls
  print_keeps_remote : frame.
#[global] Hint Extern 2 (preserves _ (print_events _)) =>
  apply preserves_print_events; intros ? : frame.

Section MethodProperties.
Context {E : Externals}.

(** X3.  The four methods touch nothing but the calendar and stdout:
    whatever the service answers, the local files (the token file among
    them) and stderr are as they were, and every call made is a request to
    the calendar service; none of them authenticates again. *)
Theorem methods_are_calendar_only (self : CalendarManager) :
  (∀ max_results days_ahead, calendar_only (list_events self max_results days_ahead))
  ∧ (∀ title start_time end_time description attendees,
       calendar_only (create_event self title start_time end_time description attendees))
  ∧ (∀ event_id title start_time end_time description,
       calendar_only (update_event self event_id title start_time end_time description))
  ∧ (∀ event_id, calendar_only (delete_event self event_id)).
Proof.
  unfold calendar_only.
  split_and!; intros;
    (split_and!;
     [ frame_program
     | frame_program
     | unfold list_events, create_event, update_event, delete_event,
         execute_list, execute_insert, execute_get, execute_update, execute_delete;
       calls_frame ]).
Qed.

Lemma http_handler_catches {A} (body : M A) (result : A) (w : World) (msg : string) :
  fst (try_except body (on_http_error result) w) ≠ Raise (HttpError msg).
Proof.
  unfold try_except. destruct (body w) as [[a|e] w1]; [done|].
  by destruct e.
Qed.

Lemma http_or_value_handler_catches {A} (body : M A) (result : A) (w : World)
    (msg : string) :
  fst (try_except body (on_http_or_value_error result) w) ≠ Raise (HttpError msg)
  ∧ fst (try_except body (on_http_or_value_error result) w) ≠ Raise (ValueError msg).
Proof.
  unfold try_except. destruct (body w) as [[a|e] w1]; [done|].
  by destruct e.
Qed.

(** X4.  No [HttpError] leaves any of the four methods, whatever raised it
    inside, and no [ValueError] leaves [create_event] or [update_event];
    [list_events] and [delete_event] have no clause for [ValueError]. *)
Theorem methods_catch_what_they_name (self : CalendarManager) (w : World) (msg : string) :
  (∀ max_results days_ahead,
     fst (list_events self max_results days_ahead w) ≠ Raise (HttpError msg))
  ∧ (∀ title start_time end_time description attendees,
       fst (create_event self title start_time end_time description attendees w)
         ≠ Raise (HttpError msg)
       ∧ fst (create_event self title start_time end_time description attendees w)
         ≠ Raise (ValueError msg))
  ∧ (∀ event_id title start_time end_time description,
       fst (update_event self event_id title start_time end_time description w)
         ≠ Raise (HttpError msg)
       ∧ fst (update_event self event_id title start_time end_time description w)
         ≠ Raise (ValueError msg))
  ∧ (∀ event_id, fst (delete_event self event_id w) ≠ Raise (HttpError msg)).
Proof.
  split_and!; intros.
  - apply http_handler_catches.
  - apply http_or_value_handler_catches.
  - apply http_or_value_handler_catches.
  - apply http_handler_catches.
Qed.

(** X5.  On a manager whose [service] is [None] (authentication did not
    complete) every method raises [AttributeError] at its first use of the
    service, before any request and with nothing printed; [create_event]
    and [list_events] get that far once their dates are computed. *)
Theorem methods_without_service_raise (w : World) :
  let self := mkCalendarManager None in
  let no_events := AttributeError "'NoneType' object has no attribute 'events'" in
  (∀ event_id, delete_event self event_id w = (Raise no_events, w))
  ∧ (∀ event_id title start_time end_time description,
       update_event self event_id title start_time end_time description w
       = (Raise no_events, w))
  ∧ (∀ title start_time end_time description attendees start_dt end_dt,
       fromisoformat start_time = inr start_dt →
       fromisoformat end_time = inr end_dt →
       create_event self title start_time end_time description attendees w
       = (Raise no_events, w))
  ∧ (∀ max_results days_ahead end_dt,
       plus_days (utcfromtimestamp (clock w)) days_ahead = Some end_dt →
       list_events self max_results days_ahead w = (Raise no_events, w)).
Proof.
  simpl. split_and!; intros; by run.
Qed.

(** X6.  A date given for an event that has no [start] (or [end]) object
    is a [KeyError]: it leaves [update_event], which has no clause for it,
    after the event was fetched and with no update sent. *)
Theorem update_event_missing_date_object (svc : Service) (w : World) (id : string)
    (title end_time description : option string) (s : string) (dt : datetime) (ev : event) :
  events_get svc (remote w) id = inr ev →
  str_truthy s = true →
  fromisoformat s = inr dt →
  (ev !! "start" = None →
     update_event (mkCalendarManager (Some svc)) id title (Some s) end_time description w
     = (Raise (KeyError "start"), called [CEventsGet id] w))
  ∧ (ev !! "end" = None →
     update_event (mkCalendarManager (Some svc)) id title None (Some s) description w
     = (Raise (KeyError "end"), called [CEventsGet id] w)).
Proof.
  intros Hget Hs Hdt.
  assert (Htext : ∀ k, k ≠ "summary" → k ≠ "description" →
            patch_text ev title description !! k = ev !! k).
  { intros k ? ?. rewrite patch_text_lookup. by repeat case_decide. }
  split; intros Hmissing.
  - assert (Hpatch : patch_fields ev title (Some s) end_time description
              = inl (KeyError "start")).
    { unfold patch_fields, patch_date, set_dateTime.
      by rewrite Hs, Hdt, Htext, Hmissing. }
    by run.
  - assert (Hpatch : patch_fields ev title None (Some s) description
              = inl (KeyError "end")).
    { unfold patch_fields, patch_date, set_dateTime.
      by rewrite Hs, Hdt, Htext, Hmissing. }
    by run.
Qed.

End MethodProperties.

Section Requests.
Context {E : Externals}.

(** X7.  With two dates that parse, [create_event] sends one insertion
    whose body has the title, the description, the two dates in ISO form
    with time zone UTC, and the attendees only when there is at least one.
    When the service accepts it the method prints the identifier the
    answer carries and returns it; an answer without [id] gives [None],
    the value that also reports a failure. *)
Theorem create_event_inserts (svc : Service) (w : World)
    (title start_time end_time description : string) (attendees : option (list string))
    (start_dt end_dt : datetime) (created : event) :
  fromisoformat start_time = inr start_dt →
  fromisoformat end_time = inr end_dt →
  fst (events_insert svc (remote w)
         (new_event title description start_dt end_dt attendees)) = inr created →
  create_event (mkCalendarManager (Some svc)) title start_time end_time
    description attendees w
  = (Ret (py_get created "id"),
     printed [("Event created successfully! ID: " ++ py_str (py_get created "id"))%string]
       (with_remote
          (snd (events_insert svc (remote w)
                  (new_event title description start_dt end_dt attendees)))
          (called [CEventsInsert (new_event title description start_dt end_dt attendees)]
             w)))
  ∧ (created !! "id" = None → py_get created "id" = JNull)
  ∧ new_event title description start_dt end_dt attendees !! "summary"
    = Some (JStr title)
  ∧ new_event title description start_dt end_dt attendees !! "description"
    = Some (JStr description)
  ∧ new_event title description start_dt end_dt attendees !! "start"
    = Some (JObj {[ "dateTime" := JStr (isoformat start_dt); "timeZone" := JStr "UTC" ]})
  ∧ new_event title description start_dt end_dt attendees !! "end"
    = Some (JObj {[ "dateTime" := JStr (isoformat end_dt); "timeZone" := JStr "UTC" ]})
  ∧ new_event title description start_dt end_dt attendees !! "attendees"
    = match attendees with
      | Some (email :: emails) =>
          Some (JList ((λ a, JObj {[ "email" := JStr a ]}) <$> email :: emails))
      | _ => None
      end.
Proof.
  intros Hstart Hend Hinsert. split_and!.
  - by run.
  - unfold py_get. by intros ->.
  - unfold new_event. by repeat case_match; simplify_map_eq.
  - unfold new_event. by repeat case_match; simplify_map_eq.
  - unfold new_event. by repeat case_match; simplify_map_eq.
  - unfold new_event. by repeat case_match; simplify_map_eq.
  - unfold new_event. by repeat case_match; simplify_map_eq.
Qed.

(** X8.  [delete_event] sends exactly one request, the deletion of the
    identifier it was given, whatever the service answers; when the
    service accepts it, the method prints the confirmation and returns
    [True]. *)
Theorem delete_event_requests_once (svc : Service) (w : World) (id : string) :
  calls (snd (delete_event (mkCalendarManager (Some svc)) id w))
    = calls w ++ [CEventsDelete id]
  ∧ remote (snd (delete_event (mkCalendarManager (Some svc)) id w))
    = snd (events_delete svc (remote w) id)
  ∧ (fst (events_delete svc (remote w) id) = None →
     delete_event (mkCalendarManager (Some svc)) id w
     = (Ret true,
        printed [("Event deleted successfully! ID: " ++ id)%string]
          (with_remote (snd (events_delete svc (remote w) id))
             (called [CEventsDelete id] w)))).
Proof.
  split_and!.
  - run. destruct (fst (events_delete svc (remote w) id)) as [[]|]; simpl; done.
  - run. destruct (fst (events_delete svc (remote w) id)) as [[]|]; simpl; done.
  - intros Hok. by run.
Qed.

(** X9.  [list_events] asks for the events between now and [days_ahead]
    days from now, both as ISO text with a [Z] appended.  An answer with no
    [items], or with none in it, prints one line that says so and gives the
    empty list, the value that also reports a failure. *)
Theorem list_events_nothing_found (svc : Service) (w : World) (max_results days_ahead : Z)
    (end_dt : datetime) (answer : ListResponse) :
  plus_days (utcfromtimestamp (clock w)) days_ahead = Some end_dt →
  events_list svc (remote w)
    (isoformat (utcfromtimestamp (clock w)) ++ "Z")%string
    (isoformat end_dt ++ "Z")%string max_results = inr answer →
  items answer = None ∨ items answer = Some [] →
  list_events (mkCalendarManager (Some svc)) max_results days_ahead w
  = (Ret [],
     printed [("No upcoming events found in the next " ++ pretty days_ahead
               ++ " days.")%string]
       (called [CEventsList (isoformat (utcfromtimestamp (clock w)) ++ "Z")%string
                            (isoformat end_dt ++ "Z")%string max_results] w)).
Proof.
  intros Hend Hlist [Hitems|Hitems]; by run.
Qed.

End Requests.

Section Listing.
Context {E : Externals}.

Lemma printed_nothing (w : World) : printed [] w = w.
Proof. destruct w. unfold printed. simpl. by rewrite app_nil_r. Qed.

Lemma printed_printed (lines1 lines2 : list string) (w : World) :
  printed lines2 (printed lines1 w) = printed (lines1 ++ lines2) w.
Proof. unfold printed. simpl. by rewrite app_assoc. Qed.

(** Events that print one line each print their lines in order. *)
Lemma print_events_lines (evs : list event) (lines : list string) :
  Forall2 (λ ev line, ∀ w, print_event ev w = (Ret tt, printed [line] w)) evs lines →
  ∀ w, print_events evs w = (Ret tt, printed lines w).
Proof.
  induction 1 as [|ev line evs lines Hev _ IH]; intros w; simpl.
  - unfold ret. by rewrite printed_nothing.
  - unfold bind. by rewrite Hev, IH, printed_printed.
Qed.

(** X10.  The line of an event in the listing: a bullet, the start, the
    title and the first eight characters of the identifier.  A start with
    [dateTime] that contains a [T] is parsed, after every [Z] in it is
    replaced by [+00:00], and shown to the minute; an all-day event, with
    [date] only, shows the date as it is.  An event without [summary] is
    titled [No title]. *)
Theorem print_event_line (ev start : event) (id : string) (w : World) :
  ev !! "start" = Some (JObj start) →
  ev !! "id" = Some (JStr id) →
  (∀ s dt,
     start !! "dateTime" = Some (JStr s) →
     str_contains "T" s = true →
     fromisoformat (replace_Z s) = inr dt →
     print_event ev w
     = (Ret tt,
        printed [("• " ++ strftime_minutes dt ++ " - "
                  ++ py_str (default (JStr "No title") (ev !! "summary"))
                  ++ " (ID: " ++ substring 0 8 id ++ "...)")%string] w))
  ∧ (∀ d,
       start !! "dateTime" = None →
       start !! "date" = Some (JStr d) →
       str_contains "T" d = false →
       print_event ev w
       = (Ret tt,
          printed [("• " ++ d ++ " - "
                    ++ py_str (default (JStr "No title") (ev !! "summary"))
                    ++ " (ID: " ++ substring 0 8 id ++ "...)")%string] w)).
Proof.
  intros Hstart Hid. split.
  - intros s dt Hs HT Hdt. unfold print_event, py_get. by run.
  - intros d Hnone Hd HT. unfold print_event, py_get. by run.
Qed.

(** X11.  When the service answers with events that each print their
    line, [list_events] prints a heading, a rule of sixty dashes and the
    lines in the order of the answer, and returns the events as the
    service gave them. *)
Theorem list_events_prints_each (svc : Service) (w : World) (max_results days_ahead : Z)
    (end_dt : datetime) (answer : ListResponse) (ev : event) (evs : list event)
    (lines : list string) :
  plus_days (utcfromtimestamp (clock w)) days_ahead = Some end_dt →
  events_list svc (remote w)
    (isoformat (utcfromtimestamp (clock w)) ++ "Z")%string
    (isoformat end_dt ++ "Z")%string max_results = inr answer →
  items answer = Some (ev :: evs) →
  Forall2 (λ ev line, ∀ w, print_event ev w = (Ret tt, printed [line] w))
    (ev :: evs) lines →
  list_events (mkCalendarManager (Some svc)) max_results days_ahead w
  = (Ret (ev :: evs),
     printed ((newline ++ "Upcoming events (next " ++ pretty days_ahead ++ " days):")%string
              :: "------------------------------------------------------------"
              :: lines)
       (called [CEventsList (isoformat (utcfromtimestamp (clock w)) ++ "Z")%string
                            (isoformat end_dt ++ "Z")%string max_results] w))
  ∧ length lines = length (ev :: evs).
Proof.
  intros Hend Hlist Hitems Hlines. split; [|symmetry; by eapply Forall2_length].
  pose proof (print_events_lines _ _ Hlines) as Hprint.
  unfold list_events, try_except, execute_list, events_resource, bind, get_clock,
    get_remote, log, lift_sum, ret, print.
  cbn -[print_events]. rewrite Hend. cbn -[print_events].
  rewrite Hlist. cbn -[print_events]. rewrite Hitems. cbn -[print_events].
  rewrite Hprint. unfold printed, called. simpl. by rewrite <- !app_assoc.
Qed.

(** X12.  [list_events] has no clause for [ValueError]: when the first
    event of the answer has a [dateTime] that does not parse, the
    exception leaves the method after the heading and the rule, with no
    event listed. *)
Theorem list_events_unparsable_start (svc : Service) (w : World)
    (max_results days_ahead : Z) (end_dt : datetime) (answer : ListResponse)
    (ev start : event) (evs : list event) (s msg : string) :
  plus_days (utcfromtimestamp (clock w)) days_ahead = Some end_dt →
  events_list svc (remote w)
    (isoformat (utcfromtimestamp (clock w)) ++ "Z")%string
    (isoformat end_dt ++ "Z")%string max_results = inr answer →
  items answer = Some (ev :: evs) →
  ev !! "start" = Some (JObj start) →
  start !! "dateTime" = Some (JStr s) →
  str_contains "T" s = true →
  fromisoformat (replace_Z s) = inl msg →
  list_events (mkCalendarManager (Some svc)) max_results days_ahead w
  = (Raise (ValueError msg),
     printed [(newline ++ "Upcoming events (next " ++ pretty days_ahead ++ " days):")%string;
              "------------------------------------------------------------"]
       (called [CEventsList (isoformat (utcfromtimestamp (clock w)) ++ "Z")%string
                            (isoformat end_dt ++ "Z")%string max_results] w)).
Proof.
  intros Hend Hlist Hitems Hstart Hs HT Hbad.
  assert (Hevent : ∀ w', print_event ev w' = (Raise (ValueError msg), w')).
  { intros w'. unfold print_event, py_get. by run. }
  unfold list_events, try_except, execute_list, events_resource, bind, get_clock,
    get_remote, log, lift_sum, ret. simpl.
  rewrite Hend. simpl. rewrite Hlist, Hitems. simpl.
  unfold bind, print. simpl. rewrite Hevent. simpl.
  unfold printed, called. simpl. by rewrite <- !app_assoc.
Qed.

End Listing.

Section Idempotence.
Context {E : Externals}.

(** Where the date is already in place, writing it again changes
    nothing. *)
Lemma patch_date_in_place (key : string) (value : option string) (ev : event) :
  (∀ s, value = Some s → str_truthy s = true →
     ∃ dt m, fromisoformat s = inr dt
             ∧ ev !! key = Some (JObj (<["dateTime" := JStr (isoformat dt)]> m))) →
  patch_date key value ev = inr ev.
Proof.
  intros Hplace. unfold patch_date.
  destruct value as [s|]; [|done].
  destruct (str_truthy s) eqn:Hs; [|done].
  destruct (Hplace s eq_refl Hs) as (dt & m & -> & Hkey).
  unfold set_dateTime. rewrite Hkey, insert_insert_eq. f_equal. by apply insert_id.
Qed.

Lemma patch_date_result (key : string) (value : option string) (ev ev' : event) :
  patch_date key value ev = inr ev' →
  ∀ s, value = Some s → str_truthy s = true →
    ∃ dt m, fromisoformat s = inr dt
            ∧ ev' !! key = Some (JObj (<["dateTime" := JStr (isoformat dt)]> m)).
Proof.
  intros Hpatch s -> Hs.
  apply patch_date_supplied in Hpatch as (dt & m & Hdt & _ & ->); [|done].
  exists dt, m. by rewrite lookup_insert_eq.
Qed.

(** X13.  The merge of [update_event] is idempotent: written over its own
    result, the same fields give that result again, so repeating an update
    sends the body the first one sent. *)
Theorem patch_fields_idempotent (ev body : event)
    (title start_time end_time description : option string) :
  patch_fields ev title start_time end_time description = inr body →
  patch_fields body title start_time end_time description = inr body.
Proof.
  intros Hpatch.
  apply patch_fields_inr in Hpatch as (ev1 & Hstart & Hend).
  assert (Hother : ∀ k, k ≠ "start" → k ≠ "end" →
            body !! k = patch_text ev title description !! k).
  { intros k ? ?.
    rewrite (patch_date_other _ _ _ _ k Hend) by done.
    by rewrite (patch_date_other _ _ _ _ k Hstart). }
  assert (Htext : patch_text body title description = body).
  { apply map_eq. intros k. rewrite patch_text_lookup.
    repeat case_decide; subst; try done;
      rewrite Hother, patch_text_lookup by done; by repeat case_match. }
  unfold patch_fields. rewrite Htext.
  rewrite patch_date_in_place.
  - apply patch_date_in_place. by apply (patch_date_result _ _ _ _ Hend).
  - intros s Hs Htruthy.
    destruct (patch_date_result _ _ _ _ Hstart s Hs Htruthy) as (dt & m & Hdt & Hkey).
    exists dt, m. split; [done|].
    by rewrite (patch_date_other _ _ _ _ "start" Hend).
Qed.

End Idempotence.

Section CountRules.
Context {E : Externals}.

Lemma at_most_calls_quiet {A} (n : nat) (m : M A) :
  preserves calls m → at_most_calls n m.
Proof.
  intros Hm w o w' Hrun. exists []. rewrite app_nil_r, (Hm _ _ _ Hrun). simpl.
  split; [done|lia].
Qed.

Lemma at_most_calls_log {A} (n : nat) (c : Call) (k : unit → M A) :
  (∀ a, at_most_calls n (k a)) → at_most_calls (S n) (bind (log c) k).
Proof.
  intros Hk w o w' Hrun. unfold bind, log in Hrun.
  destruct (Hk _ _ _ _ Hrun) as (cs & Hcs & Hlen). simpl in Hcs.
  exists (c :: cs). split.
  - by rewrite Hcs, <- app_assoc.
  - simpl. lia.
Qed.

Lemma at_most_calls_after_quiet {A B} (n : nat) (m : M A) (k : A → M B) :
  preserves calls m → (∀ a, at_most_calls n (k a)) → at_most_calls n (bind m k).
Proof.
  intros Hm Hk w o w' [(a & w1 & Hrun & Hrest)|(e & Hrun & _)]%bind_inv.
  - destruct (Hk _ _ _ _ Hrest) as (cs & Hcs & Hlen).
    exists cs. by rewrite Hcs, (Hm _ _ _ Hrun).
  - exists []. rewrite app_nil_r, (Hm _ _ _ Hrun). simpl. split; [done|lia].
Qed.

Lemma at_most_calls_one_more {A B} (n : nat) (m : M A) (k : A → M B) :
  at_most_calls 1 m → (∀ a, at_most_calls n (k a)) → at_most_calls (S n) (bind m k).
Proof.
  intros Hm Hk w o w' [(a & w1 & Hrun & Hrest)|(e & Hrun & _)]%bind_inv.
  - destruct (Hm _ _ _ Hrun) as (cs1 & Hcs1 & Hlen1).
    destruct (Hk _ _ _ _ Hrest) as (cs2 & Hcs2 & Hlen2).
    exists (cs1 ++ cs2). split.
    + by rewrite Hcs2, Hcs1, app_assoc.
    + rewrite length_app. lia.
  - destruct (Hm _ _ _ Hrun) as (cs1 & Hcs1 & Hlen1).
    exists cs1. split; [done|lia].
Qed.

Lemma at_most_calls_try_except {A} (n : nat) (body : M A)
    (handlers : exn → option (M A)) :
  at_most_calls n body →
  (∀ e h, handlers e = Some h → preserves calls h) →
  at_most_calls n (try_except body handlers).
Proof.
  intros Hbody Hhandlers w o w'. unfold try_except.
  destruct (body w) as [[a|e] w1] eqn:Hrun.
  - intros [= <- <-]. eauto.
  - destruct (Hbody _ _ _ Hrun) as (cs & Hcs & Hlen).
    destruct (handlers e) as [h|] eqn:Hh.
    + intros Hh'. exists cs. by rewrite (Hhandlers _ _ Hh _ _ _ Hh').
    + intros [= <- <-]. eauto.
Qed.

End CountRules.

(** Proves [at_most_calls n m] along the binds and branches of [m]. *)
Ltac count_calls :=
  repeat first
    [ solve [apply at_most_calls_quiet; frame_program]
    | apply at_most_calls_try_except; [|intros ? ? ?; open_handler; frame]
    | apply at_most_calls_log; intros ?
    | apply at_most_calls_after_quiet; [solve [frame_program]|intros ?]
    | apply at_most_calls_one_more; [|intros ?]
    | progress case_match ].

Section RequestCounts.
Context {E : Externals}.

(** X14.  However they end, [list_events], [create_event] and
    [delete_event] send at most one request, and [update_event] at most
    two. *)
Theorem methods_send_few_requests (self : CalendarManager) :
  (∀ max_results days_ahead, at_most_calls 1 (list_events self max_results days_ahead))
  ∧ (∀ title start_time end_time description attendees,
       at_most_calls 1
         (create_event self title start_time end_time description attendees))
  ∧ (∀ event_id title start_time end_time description,
       at_most_calls 2
         (update_event self event_id title start_time end_time description))
  ∧ (∀ event_id, at_most_calls 1 (delete_event self event_id)).
Proof.
  split_and!; intros;
    unfold list_events, create_event, update_event, delete_event,
      execute_list, execute_insert, execute_get, execute_update, execute_delete;
    count_calls.
Qed.

End RequestCounts.

Section Ordering.
Context {E : Externals}.

Lemma authenticate_sends_no_request :
  only_calls (λ c, negb (is_calendar_request c)) authenticate.
Proof.
  unfold authenticate, load_token, authenticate_from, consent_branch,
    run_consent_flow, creds_refresh, build_service.
  calls_frame.
Qed.

Lemma authenticate_ends_with_build (w w' : World) (svc : Service) :
  authenticate w = (Ret (Some svc), w') →
  ∃ pre, calls w' = calls w ++ pre ++ [CBuild (svc_credentials svc)].
Proof.
  unfold_program. intros Hrun.
  repeat (case_match; simplify_eq/=);
    first [ exists []; reflexivity
          | eexists [_; _]; rewrite <- ?app_assoc; reflexivity ].
Qed.

Lemma method_sends_requests_only (self : CalendarManager) (args : Namespace) :
  only_calls is_calendar_request
    match args with
    | NsNone => ret tt
    | NsList max days => let! _ := list_events self max days in ret tt
    | NsCreate title start end_ description attendees =>
        let! _ := create_event self title start end_ description
                    (Some (default [] attendees)) in
        ret tt
    | NsUpdate event_id title start end_ description =>
        let! _ := update_event self event_id title start end_ description in
        ret tt
    | NsDelete event_id => let! _ := delete_event self event_id in ret tt
    end.
Proof.
  destruct args;
    unfold list_events, create_event, update_event, delete_event,
      execute_list, execute_insert, execute_get, execute_update, execute_delete;
    calls_frame.
Qed.

(** X15.  Whatever the command and however the run ends, the calls of
    [dispatch] are those of authentication, none of which is a request to
    the calendar, followed by requests to the calendar only; and when there
    is a request at all, the call before the first one is the [build] of
    the service. *)
Theorem dispatch_builds_before_requests (args : Namespace) (w : World) :
  ∃ auth requests,
    calls (snd (dispatch args w)) = calls w ++ auth ++ requests
    ∧ forallb (λ c, negb (is_calendar_request c)) auth = true
    ∧ forallb is_calendar_request requests = true
    ∧ (requests ≠ [] → ∃ pre c, auth = pre ++ [CBuild c]).
Proof.
  assert (Hquiet : ∀ cs, calls w ++ cs = calls w ++ cs ++ []).
  { intros cs. by rewrite app_nil_r. }
  assert (Hcase : args = NsNone ∨ args ≠ NsNone).
  { destruct args; [by left|by right..]. }
  destruct Hcase as [->|Hargs].
  { exists [], []. simpl. by rewrite !app_nil_r. }
  destruct (authenticate w) as [[[svc|]|e] w1] eqn:Hauth;
    destruct (authenticate_sends_no_request _ _ _ Hauth) as (auth & Hcalls & Hauth_calls).
  - pose proof (method_sends_requests_only (mkCalendarManager (Some svc)) args) as Hmethod.
    destruct (authenticate_ends_with_build _ _ _ Hauth) as [pre Hbuild].
    assert (Hrun : dispatch args w
              = match args with
                | NsNone => ret tt
                | NsList max days =>
                    let! _ := list_events (mkCalendarManager (Some svc)) max days in ret tt
                | NsCreate title start end_ description attendees =>
                    let! _ := create_event (mkCalendarManager (Some svc)) title start end_
                                description (Some (default [] attendees)) in
                    ret tt
                | NsUpdate event_id title start end_ description =>
                    let! _ := update_event (mkCalendarManager (Some svc)) event_id title
                                start end_ description in
                    ret tt
                | NsDelete event_id =>
                    let! _ := delete_event (mkCalendarManager (Some svc)) event_id in ret tt
                end w1).
    { destruct args; [done|..];
        unfold dispatch, CalendarManager_init, bind at 1 2; by rewrite Hauth. }
    rewrite Hrun.
    match goal with
    | |- context [calls (snd (?m w1))] =>
        destruct (m w1) as [o w2] eqn:Hm;
        destruct (Hmethod _ _ _ Hm) as (requests & Hrequests & Hrequest_calls)
    end.
    exists auth, requests. simpl. split_and!; try done.
    + by rewrite Hrequests, Hcalls, app_assoc.
    + intros _. exists pre, (svc_credentials svc).
      rewrite Hcalls in Hbuild. by apply app_inv_head in Hbuild.
  - exists auth, []. split_and!; try done.
    destruct args; [done|..];
      unfold dispatch, CalendarManager_init, bind; rewrite Hauth; simpl;
      by rewrite app_nil_r.
  - exists auth, []. split_and!; try done.
    destruct args; [done|..];
      unfold dispatch, CalendarManager_init, bind; rewrite Hauth; simpl;
      by rewrite app_nil_r.
Qed.

(** X16.  When the event is fetched, the fields given are written over it
    and the service accepts the result, [update_event] prints the
    confirmation with the identifier it was given and returns [True]; the
    answer of the service is not looked at. *)
Theorem update_event_confirms (svc : Service) (w : World) (id : string)
    (title start_time end_time description : option string) (ev body updated : event) :
  events_get svc (remote w) id = inr ev →
  patch_fields ev title start_time end_time description = inr body →
  fst (events_update svc (remote w) id body) = inr updated →
  update_event (mkCalendarManager (Some svc)) id title start_time end_time description w
  = (Ret true,
     printed [("Event updated successfully! ID: " ++ id)%string]
       (with_remote (snd (events_update svc (remote w) id body))
          (called [CEventsGet id; CEventsUpdate id body] w))).
Proof.
  intros Hget Hpatch Hupdate. run. unfold printed, with_remote, called. simpl.
  by rewrite <- app_assoc.
Qed.

End Ordering.

(** * More runs on the test double *)

Module MoreRuns.
Import Sample Fixtures.

Lemma authenticate_consent_flow_witness :
  calls (snd (authenticate w_first))
    = calls w_first
      ++ [CConsent; CWriteFile TOKEN_FILE (pickle_dump creds_consented);
          CBuild creds_consented]
  ∧ fst (authenticate w_first) = Ret (Some (mkService creds_consented)).
Proof.
  destruct (authenticate_consent_flow w_first None "{}" "{}" creds_consented)
    as (Hcalls & _ & Hresult); try reflexivity.
  split; [exact Hcalls|exact Hresult].
Defined.

Lemma methods_without_service_raise_witness :
  create_event (mkCalendarManager None) "Standup"
    "2024-01-01T09:00:00" "2024-01-01T09:15:00" "" None w_bare
  = (Raise (AttributeError "'NoneType' object has no attribute 'events'"), w_bare).
Proof.
  destruct (methods_without_service_raise w_bare) as (_ & _ & Hcreate & _).
  apply (Hcreate "Standup" "2024-01-01T09:00:00" "2024-01-01T09:15:00" "" None
           "2024-01-01T09:00:00" "2024-01-01T09:15:00"); reflexivity.
Defined.

Lemma update_event_missing_date_object_witness :
  update_event manager "evt1" None (Some "2024-01-01T10:00:00") None None w_cancelled
  = (Raise (KeyError "start"), called [CEventsGet "evt1"] w_cancelled).
Proof.
  destruct (update_event_missing_date_object (mkService creds_valid) w_cancelled "evt1"
              None None None "2024-01-01T10:00:00" "2024-01-01T10:00:00" cancelled
              eq_refl eq_refl eq_refl)
    as (Hstart & _).
  apply Hstart. reflexivity.
Defined.

Lemma create_event_inserts_witness :
  review !! "attendees"
  = Some (JList [JObj {[ "email" := JStr "ann@example.org" ]};
                 JObj {[ "email" := JStr "bob@example.org" ]}])
  ∧ calls (snd (create_event manager "Review" "2024-03-01T14:00:00"
                  "2024-03-01T15:00:00" "quarterly" guests w_valid))
    = [CEventsInsert review].
Proof.
  destruct (create_event_inserts (mkService creds_valid) w_valid "Review"
              "2024-03-01T14:00:00" "2024-03-01T15:00:00" "quarterly" guests
              "2024-03-01T14:00:00" "2024-03-01T15:00:00"
              (<["id" := JStr ("evt" ++ pretty (size calendar0))]> review))
    as (Hrun & _ & _ & _ & _ & _ & Hguests); try reflexivity.
  split; [exact Hguests|]. unfold manager. rewrite Hrun. reflexivity.
Defined.

Lemma delete_event_requests_once_witness :
  calls (snd (delete_event manager "evt0" w_valid)) = [CEventsDelete "evt0"]
  ∧ fst (delete_event manager "evt0" w_valid) = Ret true.
Proof.
  destruct (delete_event_requests_once (mkService creds_valid) w_valid "evt0")
    as (Hcalls & _ & Hrun).
  split; [exact Hcalls|]. unfold manager. rewrite Hrun; reflexivity.
Defined.

Lemma list_events_nothing_found_witness :
  list_events manager 10 7 w_empty
  = (Ret [],
     printed ["No upcoming events found in the next 7 days."]
       (called [CEventsList "2024-01-01T00:00:00Z" "2024-01-01T00:00:00Z" 10] w_empty)).
Proof.
  apply (list_events_nothing_found (mkService creds_valid) w_empty 10 7
           "2024-01-01T00:00:00" (mkListResponse (Some [])) eq_refl eq_refl).
  right. reflexivity.
Defined.

Lemma print_event_line_witness :
  print_event standup w_valid
    = (Ret tt, printed ["• 2024-01-01 09:00 - Standup (ID: evt0...)"] w_valid)
  ∧ print_event holiday w_valid
    = (Ret tt, printed ["• 2024-01-01 - New Year (ID: holiday-...)"] w_valid).
Proof.
  split.
  - apply (proj1 (print_event_line standup
                    {[ "dateTime" := JStr "2024-01-01T09:00:00"; "timeZone" := JStr "UTC" ]}
                    "evt0" w_valid eq_refl eq_refl)
             "2024-01-01T09:00:00" "2024-01-01T09:00:00"); reflexivity.
  - apply (proj2 (print_event_line holiday {[ "date" := JStr "2024-01-01" ]}
                    "holiday-2024-01-01" w_valid eq_refl eq_refl)
             "2024-01-01"); reflexivity.
Defined.

Lemma list_events_prints_each_witness :
  fst (list_events manager 10 7 w_valid) = Ret [standup]
  ∧ stdout (snd (list_events manager 10 7 w_valid))
    = [(newline ++ "Upcoming events (next 7 days):")%string;
       "------------------------------------------------------------";
       "• 2024-01-01 09:00 - Standup (ID: evt0...)"].
Proof.
  destruct (list_events_prints_each (mkService creds_valid) w_valid 10 7
              "2024-01-01T00:00:00" (mkListResponse (Some [standup])) standup []
              ["• 2024-01-01 09:00 - Standup (ID: evt0...)"] eq_refl eq_refl eq_refl)
    as (Hrun & _).
  - repeat constructor.
  - unfold manager. rewrite Hrun. split; reflexivity.
Defined.

Lemma list_events_unparsable_start_witness :
  fst (list_events manager 10 7 w_unscheduled)
    = Raise (ValueError "Invalid isoformat string: 'T.B.A.'")
  ∧ length (stdout (snd (list_events manager 10 7 w_unscheduled))) = 2%nat.
Proof.
  pose proof (list_events_unparsable_start (mkService creds_valid) w_unscheduled 10 7
                "2024-01-01T00:00:00" (mkListResponse (Some [unscheduled])) unscheduled
                {[ "dateTime" := JStr "T.B.A." ]} [] "T.B.A."
                "Invalid isoformat string: 'T.B.A.'"
                eq_refl eq_refl eq_refl eq_refl eq_refl eq_refl eq_refl) as Hrun.
  unfold manager. rewrite Hrun. split; reflexivity.
Defined.

Lemma patch_fields_idempotent_witness :
  patch_fields standup_patched (Some "Retro")
    (Some "2024-01-01T10:00:00") (Some "2024-01-01T10:15:00") None
  = inr standup_patched.
Proof.
  apply (patch_fields_idempotent standup standup_patched).
  vm_compute. reflexivity.
Defined.

Lemma update_event_confirms_witness :
  fst (update_event manager "evt0" (Some "Retro") None None None w_valid) = Ret true
  ∧ stdout (snd (update_event manager "evt0" (Some "Retro") None None None w_valid))
    = ["Event updated successfully! ID: evt0"].
Proof.
  pose proof (update_event_confirms (mkService creds_valid) w_valid "evt0"
                (Some "Retro") None None None standup (<["summary" := JStr "Retro"]> standup)
                (<["summary" := JStr "Retro"]> standup) eq_refl eq_refl eq_refl) as Hrun.
  unfold manager. rewrite Hrun. split; reflexivity.
Defined.

Lemma authenticate_leaves_calendar_alone_witness :
  remote (snd (authenticate w_expired)) = remote w_expired
  ∧ files (snd (authenticate w_expired)) !! CREDENTIALS_FILE
    = files w_expired !! CREDENTIALS_FILE.
Proof.
  destruct (authenticate_leaves_calendar_alone w_expired) as (Hremote & _ & Hfiles & _).
  split; [exact Hremote|]. apply Hfiles. discriminate.
Defined.

Lemma methods_are_calendar_only_witness :
  files (snd (delete_event manager "evt0" w_valid)) = files w_valid
  ∧ stderr (snd (delete_event manager "evt0" w_valid)) = stderr w_valid.
Proof.
  destruct (methods_are_calendar_only manager) as (_ & _ & _ & Hdelete).
  destruct (Hdelete "evt0") as (Hfiles & Hstderr & _).
  split.
  - apply (Hfiles w_valid (fst (delete_event manager "evt0" w_valid))).
    apply surjective_pairing.
  - apply (Hstderr w_valid (fst (delete_event manager "evt0" w_valid))).
    apply surjective_pairing.
Defined.

Lemma methods_catch_what_they_name_witness :
  fst (delete_event manager "evt9" w_valid) ≠ Raise (HttpError "<HttpError 404 Not Found>")
  ∧ fst (create_event manager "Standup" "not-a-date" "2024-01-01T09:15:00" "" None w_valid)
    ≠ Raise (ValueError "Invalid isoformat string: 'not-a-date'").
Proof.
  split.
  - apply (methods_catch_what_they_name manager w_valid "<HttpError 404 Not Found>").
  - apply (methods_catch_what_they_name manager w_valid
             "Invalid isoformat string: 'not-a-date'").
Defined.

Lemma methods_send_few_requests_witness :
  ∃ cs,
    calls (snd (update_event manager "evt0" (Some "Retro") None None None w_valid))
    = calls w_valid ++ cs
    ∧ (length cs ≤ 2)%nat.
Proof.
  destruct (methods_send_few_requests manager) as (_ & _ & Hupdate & _).
  apply (Hupdate "evt0" (Some "Retro") None None None w_valid
           (fst (update_event manager "evt0" (Some "Retro") None None None w_valid))).
  apply surjective_pairing.
Defined.

Lemma dispatch_builds_before_requests_witness :
  ∃ auth requests,
    calls (snd (dispatch (NsDelete "evt0") w_expired))
    = calls w_expired ++ auth ++ requests
    ∧ forallb (λ c, negb (is_calendar_request c)) auth = true
    ∧ forallb is_calendar_request requests = true
    ∧ (requests ≠ [] → ∃ pre c, auth = pre ++ [CBuild c]).
Proof.
  apply (dispatch_builds_before_requests (NsDelete "evt0") w_expired).
Defined.

End MoreRuns.
